(** * Buddy web client: a model of [web/static/js/app.js]

    The browser script is event driven: user actions, settled [fetch]
    promises, microphone grants and [MediaRecorder] events each run one
    handler to completion.  The page (the DOM nodes the script touches), the
    script's three module-level variables and the host objects it creates
    are kept in one explicit state; every handler is a function in a small
    state-and-exception monad, and an [async] function is cut at its
    [await] into the part that runs at once and the part that runs when
    the promise settles. *)

From Stdlib Require Import Ascii String ZArith Lia.
From stdpp Require Import base numbers option list strings gmap.

Local Open Scope string_scope.

(** ** Strings *)

(** DOM strings are held as UTF-8 text.  [String.prototype.trim] removes
    the ECMAScript WhiteSpace and LineTerminator code points from both
    ends: U+0009..U+000D, U+0020, U+00A0, U+1680, U+2000..U+200A, U+2028,
    U+2029, U+202F, U+205F, U+3000 and U+FEFF. *)
Module Js.

Definition ws1 (a : ascii) : bool :=
  let n := nat_of_ascii a in
  ((9 <=? n)%nat && (n <=? 13)%nat) || (n =? 32)%nat.

(* C2 A0 *)
Definition ws2 (a b : ascii) : bool :=
  (nat_of_ascii a =? 194)%nat && (nat_of_ascii b =? 160)%nat.

(* E1 9A 80 | E2 80 80..8A | E2 80 A8 | E2 80 A9 | E2 80 AF | E2 81 9F
   | E3 80 80 | EF BB BF *)
Definition ws3 (a b c : ascii) : bool :=
  let x := nat_of_ascii a in
  let y := nat_of_ascii b in
  let z := nat_of_ascii c in
  ((x =? 225) && (y =? 154) && (z =? 128))%nat
  || ((x =? 226) && (y =? 128)
      && (((128 <=? z) && (z <=? 138)) || (z =? 168) || (z =? 169) || (z =? 175)))%nat
  || ((x =? 226) && (y =? 129) && (z =? 159))%nat
  || ((x =? 227) && (y =? 128) && (z =? 128))%nat
  || ((x =? 239) && (y =? 187) && (z =? 191))%nat.

(** Drops white space from the front of [l].  With [bwd] the list is read
    from the end of the text, so the bytes of one code point come last
    byte first. *)
Fixpoint strip (bwd : bool) (l : list ascii) : list ascii :=
  match l with
  | [] => []
  | a :: l1 =>
      if ws1 a then strip bwd l1
      else match l1 with
           | [] => l
           | b :: l2 =>
               if (if bwd then ws2 b a else ws2 a b) then strip bwd l2
               else match l2 with
                    | [] => l
                    | c :: l3 =>
                        if (if bwd then ws3 c b a else ws3 a b c)
                        then strip bwd l3 else l
                    end
           end
  end.

Definition trim (s : string) : string :=
  string_of_list_ascii
    (rev (strip true (rev (strip false (list_ascii_of_string s))))).

(** Truthiness of a string value that may be [undefined] or [null]. *)
Definition truthy (v : option string) : bool :=
  match v with
  | Some s => negb (String.eqb s "")
  | None => false
  end.

(** [v || d] on such a value. *)
Definition or_else (v : option string) (d : string) : string :=
  if truthy v then default d v else d.

(** Assigning to [textContent], a nullable DOMString: [undefined] and
    [null] give the empty text. *)
Definition to_text (v : option string) : string := default "" v.

(** [v > 0] for a numeric field that may be missing: [undefined > 0] and
    [null > 0] are false. *)
Definition gt0 (v : option Z) : bool :=
  match v with
  | Some n => (0 <? n)%Z
  | None => false
  end.

End Js.

(** ** The page *)

Inductive Sender := user | assistant.

Definition sender_name (who : Sender) : string :=
  match who with user => "user" | assistant => "assistant" end.

(** One [div.message] of the chat list, as [addMessageToUI] builds it: the
    class, the avatar's text and the text of the paragraph inside the
    content bubble. *)
Record Message := {
  className : string;
  avatar : string;
  textContent : string
}.

(** A task of the [/api/tasks] payload. *)
Record Task := {
  task_id : string;
  description : string;
  status : string;
  created_at : string
}.

(** The text [new Date(created_at).toLocaleString()] gives depends on the
    host's locale and is kept symbolic. *)
Inductive DateText := toLocaleString (created_at : string).

(** The one button of a task card; its listener calls
    [updateTaskStatus on_click_id on_click_status]. *)
Record ActionButton := {
  label : string;
  on_click_id : string;
  on_click_status : string
}.

(** One [div.task-item] of the task panel. *)
Record TaskItem := {
  item_class : string;
  data_id : string;
  item_description : string;
  meta_date : DateText;
  meta_status : string;
  actions : list ActionButton
}.

(** Children of [#tasks-list]: a paragraph written through [innerHTML], or
    a task card. *)
Inductive PanelNode :=
  | Para (cls : string) (txt : string)
  | Card (c : TaskItem).

Record FilterButton := {
  dataset_filter : string;
  active : bool
}.

Record VoiceButton := {
  disabled : bool;
  vb_text : string;
  title : string;
  recording : bool
}.

Record Dom := {
  chatMessages : list Message;
  userInput : string;
  voiceButton : VoiceButton;
  tasksList : list PanelNode;
  filterButtons : list FilterButton
}.

(** ** The script's variables *)

Definition Chunk := list Byte.byte.

Record Vars := {
  mediaRecorder : option nat;
  audioChunks : list Chunk;
  isRecording : bool
}.

(** ** Host objects and effects *)

Record Blob := { parts : list Chunk; mime : string }.

Inductive Body :=
  | NoBody
  | ChatJson (message user_id : string) (include_voice : bool)
  | StatusJson (new_status : string)
  | FormData (audio : Blob) (form_user_id : string).

Record Request := { url : string; method : string; body : Body }.

Inductive JsError :=
  | Error (msg : string)
  | TypeError
  | SyntaxError
  | InvalidStateError
  | Rejected.

Inductive Effect :=
  | Fetch (p : nat) (r : Request)
  | GetUserMedia (p : nat)
  | RecorderStart (r : nat)
  | RecorderStop (r : nat)
  | StopTracks (stream : nat)
  | Alert (msg : string)
  | ConsoleError (what : string) (e : JsError)
  | Uncaught (e : JsError)
  | Play (src : string).

(** The [await] at which a pending [fetch] is resumed. *)
Inductive Awaiting :=
  | InFetchChatResponse
  | InLoadTasks
  | InUpdateTaskStatus
  | InSendVoiceRecording.

(** A [MediaRecorder]: [Stopping] is the time between the end of the
    recording (the script called [stop()], or the tracks of the stream
    ended by themselves) and the dispatch of the [stop] event; the
    recorder's own state is inactive by then, and [stop()] throws. *)
Inductive RecorderState := Recording | Stopping | Inactive.

Record Recorder := { stream : nat; state : RecorderState }.

Record Host := {
  mediaDevices : bool;
  effects : list Effect;
  promises : nat;
  fetching : gmap nat Awaiting;
  asking : gset nat;
  recorders : list Recorder;
  streams : list bool
}.

Record State := { dom : Dom; vars : Vars; host : Host }.

(** Field updates. *)
Definition on_dom (f : Dom -> Dom) (s : State) : State :=
  {| dom := f (dom s); vars := vars s; host := host s |}.
Definition on_vars (f : Vars -> Vars) (s : State) : State :=
  {| dom := dom s; vars := f (vars s); host := host s |}.
Definition on_host (f : Host -> Host) (s : State) : State :=
  {| dom := dom s; vars := vars s; host := f (host s) |}.

Definition set_chatMessages (v : list Message) (d : Dom) : Dom :=
  {| chatMessages := v; userInput := userInput d; voiceButton := voiceButton d;
     tasksList := tasksList d; filterButtons := filterButtons d |}.
Definition set_userInput (v : string) (d : Dom) : Dom :=
  {| chatMessages := chatMessages d; userInput := v; voiceButton := voiceButton d;
     tasksList := tasksList d; filterButtons := filterButtons d |}.
Definition set_voiceButton (v : VoiceButton) (d : Dom) : Dom :=
  {| chatMessages := chatMessages d; userInput := userInput d; voiceButton := v;
     tasksList := tasksList d; filterButtons := filterButtons d |}.
Definition set_tasksList (v : list PanelNode) (d : Dom) : Dom :=
  {| chatMessages := chatMessages d; userInput := userInput d;
     voiceButton := voiceButton d; tasksList := v;
     filterButtons := filterButtons d |}.
Definition set_filterButtons (v : list FilterButton) (d : Dom) : Dom :=
  {| chatMessages := chatMessages d; userInput := userInput d;
     voiceButton := voiceButton d; tasksList := tasksList d;
     filterButtons := v |}.

Definition set_mediaRecorder (v : option nat) (x : Vars) : Vars :=
  {| mediaRecorder := v; audioChunks := audioChunks x; isRecording := isRecording x |}.
Definition set_audioChunks (v : list Chunk) (x : Vars) : Vars :=
  {| mediaRecorder := mediaRecorder x; audioChunks := v; isRecording := isRecording x |}.
Definition set_isRecording (v : bool) (x : Vars) : Vars :=
  {| mediaRecorder := mediaRecorder x; audioChunks := audioChunks x; isRecording := v |}.

Definition set_effects (v : list Effect) (h : Host) : Host :=
  {| mediaDevices := mediaDevices h; effects := v; promises := promises h;
     fetching := fetching h; asking := asking h; recorders := recorders h;
     streams := streams h |}.
Definition set_promises (v : nat) (h : Host) : Host :=
  {| mediaDevices := mediaDevices h; effects := effects h; promises := v;
     fetching := fetching h; asking := asking h; recorders := recorders h;
     streams := streams h |}.
Definition set_fetching (v : gmap nat Awaiting) (h : Host) : Host :=
  {| mediaDevices := mediaDevices h; effects := effects h; promises := promises h;
     fetching := v; asking := asking h; recorders := recorders h;
     streams := streams h |}.
Definition set_asking (v : gset nat) (h : Host) : Host :=
  {| mediaDevices := mediaDevices h; effects := effects h; promises := promises h;
     fetching := fetching h; asking := v; recorders := recorders h;
     streams := streams h |}.
Definition set_recorders (v : list Recorder) (h : Host) : Host :=
  {| mediaDevices := mediaDevices h; effects := effects h; promises := promises h;
     fetching := fetching h; asking := asking h; recorders := v;
     streams := streams h |}.
Definition set_streams (v : list bool) (h : Host) : Host :=
  {| mediaDevices := mediaDevices h; effects := effects h; promises := promises h;
     fetching := fetching h; asking := asking h; recorders := recorders h;
     streams := v |}.

(** ** Handlers as state-and-exception computations *)

Inductive Result (A : Type) :=
  | Ret (a : A)
  | Throw (e : JsError).
Arguments Ret {A} a.
Arguments Throw {A} e.

Definition M (A : Type) : Type := State -> Result A * State.

Definition ret {A} (a : A) : M A := fun s => (Ret a, s).
Definition throw {A} (e : JsError) : M A := fun s => (Throw e, s).
Definition bind {A B} (m : M A) (k : A -> M B) : M B :=
  fun s => match m s with
           | (Ret a, s1) => k a s1
           | (Throw e, s1) => (Throw e, s1)
           end.
Definition try_catch {A} (m : M A) (h : JsError -> M A) : M A :=
  fun s => match m s with
           | (Ret a, s1) => (Ret a, s1)
           | (Throw e, s1) => h e s1
           end.
Definition gets {A} (f : State -> A) : M A := fun s => (Ret (f s), s).
Definition modify (f : State -> State) : M unit := fun s => (Ret tt, f s).

Declare Scope js_scope.
Delimit Scope js_scope with js.
Notation "'let*' x ':=' m 'in' k" := (bind m (fun x => k))
  (at level 10, x name, m at level 100, k at level 200) : js_scope.
Notation "m '>>' k" := (bind m (fun _ => k))
  (at level 100, k at level 200, right associativity) : js_scope.
Local Open Scope js_scope.

Definition when (b : bool) (m : M unit) : M unit := if b then m else ret tt.

Definition perform (e : Effect) : M unit :=
  modify (on_host (fun h => set_effects (effects h ++ [e]) h)).

(** [fetch(...)]: a new pending promise, resumed at [site] when it
    settles. *)
Definition fetch (site : Awaiting) (r : Request) : M unit :=
  let* p := gets (fun s => promises (host s)) in
  perform (Fetch p r) >>
  modify (on_host (fun h =>
    set_promises (S p) (set_fetching (<[p := site]> (fetching h)) h))).

(** [navigator.mediaDevices.getUserMedia({ audio: true })]. *)
Definition getUserMedia : M unit :=
  let* supported := gets (fun s => mediaDevices (host s)) in
  if negb supported then throw TypeError
  else
    let* p := gets (fun s => promises (host s)) in
    perform (GetUserMedia p) >>
    modify (on_host (fun h =>
      set_promises (S p) (set_asking ({[ p ]} ∪ asking h) h))).

(** What a settled [fetch] hands back. *)
Inductive Json :=
  | JNull
  | JObject (text : option string) (tasks_extracted : option Z)
            (voice_data : option string) (tasks : option (list Task)).

Inductive ResponseBody :=
  | NotJson
  | JsonBody (v : Json).

Inductive Settled :=
  | NetworkError
  | Response (ok : bool) (payload : ResponseBody).

Definition await (o : Settled) : M (bool * ResponseBody) :=
  match o with
  | NetworkError => throw Rejected
  | Response ok payload => ret (ok, payload)
  end.

(** [if (!response.ok) throw new Error(...)]. *)
Definition check_ok (response : bool * ResponseBody) : M unit :=
  if negb (fst response) then throw (Error "Network response was not ok")
  else ret tt.

(** [await response.json()]. *)
Definition json (response : bool * ResponseBody) : M Json :=
  match snd response with
  | NotJson => throw SyntaxError
  | JsonBody v => ret v
  end.

(** Property reads on the parsed body; reading a property of [null]
    throws. *)
Definition data_text (data : Json) : M (option string) :=
  match data with
  | JNull => throw TypeError
  | JObject t _ _ _ => ret t
  end.
Definition data_tasks_extracted (data : Json) : M (option Z) :=
  match data with
  | JNull => throw TypeError
  | JObject _ n _ _ => ret n
  end.
Definition data_voice_data (data : Json) : M (option string) :=
  match data with
  | JNull => throw TypeError
  | JObject _ _ v _ => ret v
  end.
Definition data_tasks (data : Json) : M (option (list Task)) :=
  match data with
  | JNull => throw TypeError
  | JObject _ _ _ ts => ret ts
  end.

(** ** The script *)

Definition userId : string := "default_user".

(** The [div.message] that [addMessageToUI] creates. *)
Definition message_div (who : Sender) (content : option string) : Message :=
  {| className := "message " ++ sender_name who;
     avatar := match who with user => "👤" | assistant => "🤖" end;
     textContent := Js.to_text content |}.

Definition addMessageToUI (who : Sender) (content : option string) : M unit :=
  let messageDiv := message_div who content in
  modify (on_dom (fun d => set_chatMessages (chatMessages d ++ [messageDiv]) d)).

(** The request [loadTasks] sends for a filter. *)
Definition tasks_request (flt : string) : Request :=
  let url0 := "/api/tasks?user_id=" ++ userId in
  let url1 := if negb (String.eqb flt "all") then url0 ++ "&status=" ++ flt
              else url0 in
  {| url := url1; method := "GET"; body := NoBody |}.

Definition loadTasks (flt : string) : M unit :=
  fetch InLoadTasks (tasks_request flt).

Definition task_card (task : Task) : TaskItem :=
  {| item_class := "task-item " ++ status task;
     data_id := task_id task;
     item_description := description task;
     meta_date := toLocaleString (created_at task);
     meta_status := status task;
     actions :=
       if String.eqb (status task) "pending" then
         [ {| label := "Complete"; on_click_id := task_id task;
              on_click_status := "completed" |} ]
       else if String.eqb (status task) "completed" then
         [ {| label := "Reopen"; on_click_id := task_id task;
              on_click_status := "pending" |} ]
       else [] |}.

Definition no_tasks_yet : PanelNode :=
  Para "no-tasks" "No tasks yet. Ask me to remind you about something!".
Definition error_loading : PanelNode :=
  Para "no-tasks" "Error loading tasks".

Definition set_panel (v : list PanelNode) : M unit :=
  modify (on_dom (set_tasksList v)).

Definition append_card (task : Task) : M unit :=
  modify (on_dom (fun d => set_tasksList (tasksList d ++ [Card (task_card task)]) d)).

Fixpoint forEach {A} (f : A -> M unit) (l : list A) : M unit :=
  match l with
  | [] => ret tt
  | x :: l' => f x >> forEach f l'
  end.

Definition renderTasks (tasks : list Task) : M unit :=
  if (length tasks =? 0)%nat then set_panel [no_tasks_yet]
  else set_panel [] >> forEach append_card tasks.

Definition console_error (what : string) (e : JsError) : M unit :=
  perform (ConsoleError what e).

Definition loadTasks_resume (o : Settled) : M unit :=
  try_catch
    (let* response := await o in
     check_ok response >>
     let* data := json response in
     let* tasks := data_tasks data in
     renderTasks (default [] tasks))
    (fun error =>
       console_error "Error loading tasks:" error >>
       set_panel [error_loading]).

(** [document.querySelector('.tasks-filter button.active').dataset.filter]:
    the first active button in document order; [null.dataset] throws. *)
Definition activeFilter : M string :=
  let* buttons := gets (fun s => filterButtons (dom s)) in
  match List.find active buttons with
  | Some b => ret (dataset_filter b)
  | None => throw TypeError
  end.

Definition chat_request (message : string) : Request :=
  {| url := "/api/chat"; method := "POST";
     body := ChatJson message userId false |}.

Definition fetchChatResponse (message : string) : M unit :=
  fetch InFetchChatResponse (chat_request message).

Definition chat_fallback : string :=
  "Sorry, there was an error processing your request.".

Definition fetchChatResponse_resume (o : Settled) : M unit :=
  try_catch
    (let* response := await o in
     check_ok response >>
     let* data := json response in
     let* text := data_text data in
     addMessageToUI assistant text >>
     let* n := data_tasks_extracted data in
     when (Js.gt0 n)
       (let* flt := activeFilter in loadTasks flt))
    (fun error =>
       console_error "Error:" error >>
       addMessageToUI assistant (Some chat_fallback)).

Definition sendMessage : M unit :=
  let* value := gets (fun s => userInput (dom s)) in
  let message := Js.trim value in
  if String.eqb message "" then ret tt
  else
    addMessageToUI user (Some message) >>
    modify (on_dom (set_userInput "")) >>
    fetchChatResponse message.

Definition update_request (taskId new_status : string) : Request :=
  {| url := "/api/tasks/" ++ taskId; method := "PUT";
     body := StatusJson new_status |}.

Definition updateTaskStatus (taskId new_status : string) : M unit :=
  fetch InUpdateTaskStatus (update_request taskId new_status).

Definition updateTaskStatus_resume (o : Settled) : M unit :=
  try_catch
    (let* response := await o in
     check_ok response >>
     let* flt := activeFilter in
     loadTasks flt)
    (fun error => console_error "Error updating task:" error).

(** *** Voice recording *)

Definition set_button (text ttl : string) (rec : bool) : M unit :=
  modify (on_dom (fun d =>
    set_voiceButton
      {| disabled := disabled (voiceButton d); vb_text := text;
         title := ttl; recording := rec |} d)).

Definition set_recorder_state (r : nat) (st : RecorderState) : M unit :=
  modify (on_host (fun h =>
    set_recorders
      (alter (fun x => {| stream := stream x; state := st |}) r (recorders h)) h)).

(** [new MediaRecorder(stream)]: the new object's reference. *)
Definition new_MediaRecorder (st : nat) : M nat :=
  let* r := gets (fun s => length (recorders (host s))) in
  modify (on_host (fun h =>
    set_recorders (recorders h ++ [ {| stream := st; state := Inactive |} ]) h)) >>
  ret r.

(** [mediaRecorder.start()]. *)
Definition recorder_start (r : nat) : M unit :=
  let* x := gets (fun s => recorders (host s) !! r) in
  match x with
  | Some {| stream := _; state := Inactive |} =>
      set_recorder_state r Recording >> perform (RecorderStart r)
  | Some _ => throw InvalidStateError
  | None => throw TypeError
  end.

(** [mediaRecorder.stop()] on the variable [mediaRecorder]. *)
Definition recorder_stop : M unit :=
  let* ref := gets (fun s => mediaRecorder (vars s)) in
  match ref with
  | None => throw TypeError
  | Some r =>
      let* x := gets (fun s => recorders (host s) !! r) in
      match x with
      | Some {| stream := _; state := Recording |} =>
          set_recorder_state r Stopping >> perform (RecorderStop r)
      | Some _ => throw InvalidStateError
      | None => throw TypeError
      end
  end.

(** The [.then] callback of [startRecording], run with the granted
    stream. *)
Definition startRecording_then (st : nat) : M unit :=
  let* r := new_MediaRecorder st in
  modify (on_vars (set_mediaRecorder (Some r))) >>
  modify (on_vars (set_audioChunks [])) >>
  recorder_start r >>
  modify (on_vars (set_isRecording true)) >>
  set_button "⏹️" "Stop recording" true.

(** The [.catch] callback of [startRecording]. *)
Definition startRecording_catch (error : JsError) : M unit :=
  console_error "Error accessing microphone:" error >>
  perform (Alert "Could not access microphone. Please check permissions.").

Definition startRecording : M unit :=
  let* busy := gets (fun s => isRecording (vars s)) in
  if busy then ret tt else getUserMedia.

Definition stopRecording : M unit :=
  let* busy := gets (fun s => isRecording (vars s)) in
  if negb busy then ret tt
  else
    recorder_stop >>
    modify (on_vars (set_isRecording false)) >>
    set_button "🎤" "Voice Input" false.

Definition toggleVoiceRecording : M unit :=
  let* busy := gets (fun s => isRecording (vars s)) in
  if busy then stopRecording else startRecording.

Definition processing_text : string := "🎤 Processing voice message...".
Definition not_transcribed : string := "(Could not transcribe audio)".

Definition voice_request (audioBlob : Blob) : Request :=
  {| url := "/api/voice"; method := "POST";
     body := FormData audioBlob userId |}.

Definition sendVoiceRecording (audioBlob : Blob) : M unit :=
  addMessageToUI user (Some processing_text) >>
  fetch InSendVoiceRecording (voice_request audioBlob).

Definition set_text (v : string) (m : Message) : Message :=
  {| className := className m; avatar := avatar m; textContent := v |}.

Definition playAudioResponse (base64Audio : string) : M unit :=
  perform (Play ("data:audio/mp3;base64," ++ base64Audio)).

Definition voice_fallback : string :=
  "Sorry, there was an error processing your voice message.".

Definition sendVoiceRecording_resume (o : Settled) : M unit :=
  try_catch
    (let* response := await o in
     check_ok response >>
     let* data := json response in
     let* messages := gets (fun s => chatMessages (dom s)) in
     (* messages[messages.length - 1] *)
     let* placeholder :=
       match length messages with
       | O => throw TypeError
       | S i => ret i
       end in
     let* text := data_text data in
     modify (on_dom (fun d =>
       set_chatMessages
         (alter (set_text (Js.or_else text not_transcribed)) placeholder
                (chatMessages d)) d)) >>
     addMessageToUI assistant text >>
     let* voice := data_voice_data data in
     when (Js.truthy voice) (playAudioResponse (default "" voice)) >>
     let* n := data_tasks_extracted data in
     when (Js.gt0 n)
       (let* flt := activeFilter in loadTasks flt))
    (fun error =>
       console_error "Error processing voice:" error >>
       addMessageToUI assistant (Some voice_fallback)).

(** The recorder's [dataavailable] listener. *)
Definition on_dataavailable (data : Chunk) : M unit :=
  modify (on_vars (fun x => set_audioChunks (audioChunks x ++ [data]) x)).

(** The recorder's [stop] listener; [st] is the stream the listener closed
    over. *)
Definition on_stop (st : nat) : M unit :=
  let* chunks := gets (fun s => audioChunks (vars s)) in
  let audioBlob := {| parts := chunks; mime := "audio/mp3" |} in
  sendVoiceRecording audioBlob >>
  modify (on_host (fun h => set_streams (<[st := false]> (streams h)) h)) >>
  perform (StopTracks st).

(** *** Listeners installed by [init] *)

Definition on_keydown (key : string) (shiftKey : bool) : M unit :=
  when (String.eqb key "Enter" && negb shiftKey) sendMessage.

Definition set_active (v : bool) (b : FilterButton) : FilterButton :=
  {| dataset_filter := dataset_filter b; active := v |}.

Definition on_filter_click (i : nat) : M unit :=
  modify (on_dom (fun d =>
    set_filterButtons (map (set_active false) (filterButtons d)) d)) >>
  modify (on_dom (fun d =>
    set_filterButtons (alter (set_active true) i (filterButtons d)) d)) >>
  let* b := gets (fun s => filterButtons (dom s) !! i) in
  match b with
  | Some button => loadTasks (dataset_filter button)
  | None => ret tt
  end.

Definition init : M unit :=
  let* supported := gets (fun s => mediaDevices (host s)) in
  when (negb supported)
    (modify (on_dom (fun d =>
       set_voiceButton
         {| disabled := true; vb_text := vb_text (voiceButton d);
            title := "Voice input not supported in your browser";
            recording := recording (voiceButton d) |} d))) >>
  loadTasks "all".

(** ** The event loop *)

Inductive Event :=
  | Typed (value : string)
  | ClickSend
  | Keydown (key : string) (shiftKey : bool)
  | ClickVoice
  | ClickFilter (i : nat)
  | ClickAction (card : nat) (button : nat)
  | FetchSettled (p : nat) (o : Settled)
  | MicGranted (p : nat)
  | MicDenied (p : nat)
  | DataAvailable (r : nat) (data : Chunk)
  | StopEvent (r : nat)
  | TracksEnded (r : nat).

(** Runs a listener to completion; an exception nobody caught is reported
    by the host and the changes made so far stay. *)
Definition run_handler (m : M unit) (s : State) : State :=
  match m s with
  | (Ret _, s1) => s1
  | (Throw e, s1) => snd (perform (Uncaught e) s1)
  end.

Definition resume (site : Awaiting) (o : Settled) : M unit :=
  match site with
  | InFetchChatResponse => fetchChatResponse_resume o
  | InLoadTasks => loadTasks_resume o
  | InUpdateTaskStatus => updateTaskStatus_resume o
  | InSendVoiceRecording => sendVoiceRecording_resume o
  end.

Definition action_at (s : State) (card button : nat) : option ActionButton :=
  match tasksList (dom s) !! card with
  | Some (Card c) => actions c !! button
  | _ => None
  end.

(** The promise [p] is no longer pending. *)
Definition settled (p : nat) (s : State) : State :=
  on_host (fun h => set_fetching (delete p (fetching h)) h) s.

(** One turn of the event loop; [None] when the event cannot occur in
    [s] (no such button, promise already settled, recorder not running). *)
Definition step (s : State) (e : Event) : option State :=
  match e with
  | Typed value => Some (on_dom (set_userInput value) s)
  | ClickSend => Some (run_handler sendMessage s)
  | Keydown key shiftKey => Some (run_handler (on_keydown key shiftKey) s)
  | ClickVoice =>
      if disabled (voiceButton (dom s)) then None
      else Some (run_handler toggleVoiceRecording s)
  | ClickFilter i =>
      match filterButtons (dom s) !! i with
      | Some _ => Some (run_handler (on_filter_click i) s)
      | None => None
      end
  | ClickAction card button =>
      match action_at s card button with
      | Some b =>
          Some (run_handler (updateTaskStatus (on_click_id b) (on_click_status b)) s)
      | None => None
      end
  | FetchSettled p o =>
      match fetching (host s) !! p with
      | Some site =>
          Some (run_handler (resume site o) (settled p s))
      | None => None
      end
  | MicGranted p =>
      if bool_decide (p ∈ asking (host s)) then
        let st := length (streams (host s)) in
        Some (run_handler
                (try_catch (startRecording_then st) startRecording_catch)
                (on_host (fun h =>
                   set_streams (streams h ++ [true])
                     (set_asking (asking h ∖ {[ p ]}) h)) s))
      else None
  | MicDenied p =>
      if bool_decide (p ∈ asking (host s)) then
        Some (run_handler (startRecording_catch Rejected)
                (on_host (fun h => set_asking (asking h ∖ {[ p ]}) h) s))
      else None
  | DataAvailable r data =>
      match recorders (host s) !! r with
      | Some {| stream := _; state := Inactive |} | None => None
      | Some _ => Some (run_handler (on_dataavailable data) s)
      end
  | StopEvent r =>
      match recorders (host s) !! r with
      | Some {| stream := st; state := Stopping |} =>
          Some (run_handler (on_stop st)
                  (snd (set_recorder_state r Inactive s)))
      | _ => None
      end
  | TracksEnded r =>
      (* the tracks recorder [r] records from end by themselves (device
         removed, permission withdrawn): the recorder stops recording and
         its data and stop events are due; no listener runs yet *)
      match recorders (host s) !! r with
      | Some {| stream := st; state := Recording |} =>
          Some (on_host (fun h =>
                  set_streams (<[st := false]> (streams h))
                    (set_recorders
                       (alter (fun x => {| stream := stream x; state := Stopping |})
                          r (recorders h)) h)) s)
      | _ => None
      end
  end.

Fixpoint run (s : State) (es : list Event) : option State :=
  match es with
  | [] => Some s
  | e :: es' =>
      match step s e with
      | Some s1 => run s1 es'
      | None => None
      end
  end.

(** ** Observations used in the statements *)

(** A request that failed in one of the two ways the script tells apart
    from success: the promise was rejected, or the status is not 2xx. *)
Definition failed (o : Settled) : bool :=
  match o with
  | NetworkError => true
  | Response ok _ => negb ok
  end.

(** The exception the [catch] block receives for a failed request. *)
Definition failure_error (o : Settled) : JsError :=
  match o with
  | NetworkError => Rejected
  | Response _ _ => Error "Network response was not ok"
  end.

Definition is_upload (e : Effect) : bool :=
  match e with
  | Fetch _ r => String.eqb (url r) "/api/voice"
  | _ => false
  end.

Definition is_release (e : Effect) : bool :=
  match e with
  | StopTracks _ => true
  | _ => false
  end.

Definition is_fetch (e : Effect) : bool :=
  match e with
  | Fetch _ _ => true
  | _ => false
  end.

Definition uploads (l : list Effect) : nat := length (List.filter is_upload l).
Definition releases (l : list Effect) : nat := length (List.filter is_release l).

Definition is_card (n : PanelNode) : bool :=
  match n with
  | Card _ => true
  | Para _ _ => false
  end.

(** The children [renderTasks] leaves in the panel. *)
Definition rendered (tasks : list Task) : list PanelNode :=
  match tasks with
  | [] => [no_tasks_yet]
  | _ => map (fun t => Card (task_card t)) tasks
  end.

(** A computation that leaves the marks of the filter buttons alone. *)
Definition keeps_marks {A} (m : M A) : Prop :=
  forall s, filterButtons (dom (snd (m s))) = filterButtons (dom s).

Definition one_active (s : State) : Prop :=
  length (List.filter active (filterButtons (dom s))) = 1.

(** A JSON object of the kind each endpoint answers with. *)
Definition reply (text : option string) (tasks_extracted : option Z)
    (voice_data : option string) : Settled :=
  Response true (JsonBody (JObject text tasks_extracted voice_data None)).
Definition task_list (tasks : option (list Task)) : Settled :=
  Response true (JsonBody (JObject None None None tasks)).

(** A page as the script finds it on load, used for concrete runs: an
    empty chat, three filter buttons of which the first is marked. *)
Definition example_page : State :=
  {| dom :=
       {| chatMessages := [];
          userInput := "";
          voiceButton := {| disabled := false; vb_text := "🎤";
                            title := "Voice Input"; recording := false |};
          tasksList := [];
          filterButtons :=
            [ {| dataset_filter := "all"; active := true |};
              {| dataset_filter := "pending"; active := false |};
              {| dataset_filter := "completed"; active := false |} ] |};
     vars := {| mediaRecorder := None; audioChunks := []; isRecording := false |};
     host := {| mediaDevices := true; effects := []; promises := 0;
                fetching := ∅; asking := ∅; recorders := []; streams := [] |} |}.

Definition type_text (v : string) (s : State) : State :=
  on_dom (set_userInput v) s.

(** The example page with a tab and three spaces typed into the input. *)
Definition blank_page : State := type_text (String "009" "   ") example_page.

(** The example page after the user sent the text hi: the chat request is
    promise 0. *)
Definition chat_pending : State :=
  run_handler sendMessage (type_text "hi" example_page).

(** The example page with a finished recording being uploaded: the upload
    is promise 1. *)
Definition voice_pending : State :=
  default example_page
    (run example_page [ClickVoice; MicGranted 0; ClickVoice; StopEvent 0]).

Definition task1 : Task :=
  {| task_id := "1"; description := "water the plants"; status := "pending";
     created_at := "2024-05-01T09:00:00" |}.
Definition task2 : Task :=
  {| task_id := "2"; description := "file the report"; status := "completed";
     created_at := "2024-05-02T10:30:00" |}.

(** [task1] as the backend holds it once it has been completed. *)
Definition task1_done : Task :=
  {| task_id := "1"; description := "water the plants"; status := "completed";
     created_at := "2024-05-01T09:00:00" |}.

(** A backend that holds [task1] and [task2] and answers each task query
    by status. *)
Definition backend (flt : string) : list Task :=
  if String.eqb flt "pending" then [task1]
  else if String.eqb flt "completed" then [task2]
  else [task1; task2].

(** The panel shows what [answer] holds for the filter of the active
    button. *)
Definition shows_active_filter (answer : string -> list Task) (s : State) : Prop :=
  forall b, List.find active (filterButtons (dom s)) = Some b ->
            tasksList (dom s) = rendered (answer (dataset_filter b)).

(** The example page once [init] has run: the first task query is promise
    0. *)
Definition loaded_page : State := run_handler init example_page.

(** The example page after [init], with two tasks shown and a click on the
    third filter button: its task query is promise 1. *)
Definition filter_pending : State :=
  default example_page
    (run (run_handler init example_page)
       [FetchSettled 0 (task_list (Some [task1; task2])); ClickFilter 2]).

(** The example page after [init], with two tasks shown and a click on the
    Complete button of the first card: the update is promise 1. *)
Definition update_pending : State :=
  default example_page
    (run (run_handler init example_page)
       [FetchSettled 0 (task_list (Some [task1; task2])); ClickAction 0 0]).

(** ** Further observations *)

(** The state the script starts in on a page [d]: its three variables as
    declared, no host object created yet; [supported] tells whether
    [navigator.mediaDevices.getUserMedia] exists. *)
Definition boot (d : Dom) (supported : bool) : State :=
  {| dom := d;
     vars := {| mediaRecorder := None; audioChunks := []; isRecording := false |};
     host := {| mediaDevices := supported; effects := []; promises := 0;
                fetching := ∅; asking := ∅; recorders := []; streams := [] |} |}.

(** The exception a [try] block around a request raises for an answer it
    cannot use: a rejected promise, a status that is not a success, a body
    that is not JSON, or the JSON value null; [None] for a JSON object
    with a success status. *)
Definition thrown (o : Settled) : option JsError :=
  match o with
  | NetworkError => Some Rejected
  | Response false _ => Some (Error "Network response was not ok")
  | Response true NotJson => Some SyntaxError
  | Response true (JsonBody JNull) => Some TypeError
  | Response true (JsonBody (JObject _ _ _ _)) => None
  end.

Definition is_uncaught (e : Effect) : bool :=
  match e with
  | Uncaught _ => true
  | _ => false
  end.

(** The four kinds of request the script sends: a chat message that is
    not empty, a task query, a status update, a voice upload. *)
Definition script_request (r : Request) : Prop :=
  (exists message, message <> "" /\ r = chat_request message)
  \/ (exists flt, r = tasks_request flt)
  \/ (exists taskId new_status, r = update_request taskId new_status)
  \/ (exists audioBlob, r = voice_request audioBlob).

(** An effect the listeners themselves perform: any effect but the
    report of an uncaught exception, a request being one of the four
    kinds. *)
Definition api_effect (e : Effect) : Prop :=
  match e with
  | Fetch _ r => script_request r
  | Uncaught _ => False
  | _ => True
  end.

(** A computation after which [R] relates the state before to the state
    after, however it ends. *)
Definition respects {A} (R : State -> State -> Prop) (m : M A) : Prop :=
  forall s, R s (snd (m s)).

(** A computation that never ends in an exception. *)
Definition returns {A} (m : M A) : Prop :=
  forall s, exists a, fst (m s) = Ret a.

(** The chat list only got longer. *)
Definition chat_extended (s s' : State) : Prop :=
  exists new, chatMessages (dom s') = (chatMessages (dom s) ++ new)%list.

(** The effects only got longer, by effects that satisfy [P]. *)
Definition emitted (P : Effect -> Prop) (s s' : State) : Prop :=
  exists new, effects (host s') = (effects (host s) ++ new)%list /\ Forall P new.

(** What the recorder's control flow reads. *)
Definition recorder_view (s : State) :=
  (isRecording (vars s), mediaRecorder (vars s), recorders (host s),
   mediaDevices (host s), disabled (voiceButton (dom s)), asking (host s)).

Definition same_recorder (s s' : State) : Prop :=
  recorder_view s' = recorder_view s.

(** The event of a recorder that stops by itself. *)
Definition self_stop (e : Event) : bool :=
  match e with
  | TracksEnded _ => true
  | _ => false
  end.

(** An effect that can appear in a run: a request of one of the four
    kinds, the report of an uncaught InvalidStateError, or any effect that
    is neither a request nor such a report. *)
Definition script_effect (e : Effect) : Prop :=
  match e with
  | Fetch _ r => script_request r
  | Uncaught err => err = InvalidStateError
  | _ => True
  end.

(** While [isRecording] is set, the variable [mediaRecorder] refers to a
    recorder that exists; and a browser without media devices has the
    voice button disabled. *)
Definition recorder_known (s : State) : Prop :=
  (isRecording (vars s) = true ->
   exists r x, mediaRecorder (vars s) = Some r
               /\ recorders (host s) !! r = Some x)
  /\ (mediaDevices (host s) = false ->
      disabled (voiceButton (dom s)) = true).

(** The same with a recorder that is recording: this holds as long as no
    recorder has stopped by itself. *)
Definition recorder_sound (s : State) : Prop :=
  (isRecording (vars s) = true ->
   exists r st, mediaRecorder (vars s) = Some r
                /\ recorders (host s) !! r
                   = Some {| stream := st; state := Recording |})
  /\ (mediaDevices (host s) = false ->
      disabled (voiceButton (dom s)) = true).

(** [s'] shows the task panel of [s]. *)
Definition same_panel (s s' : State) : Prop :=
  tasksList (dom s') = tasksList (dom s).

(** The example page in a browser without media devices, after [init]. *)
Definition unsupported_page : State :=
  run_handler init (boot (dom example_page) false).

(** The example page with [task1] and [task2] shown. *)
Definition tasks_shown : State :=
  default example_page
    (run loaded_page [FetchSettled 0 (task_list (Some [task1; task2]))]).

(** The example page with a microphone request pending: promise 0. *)
Definition mic_pending : State :=
  default example_page (run example_page [ClickVoice]).

(** The example page with a stopped recorder whose stop event is due. *)
Definition stop_due : State :=
  default example_page
    (run example_page [ClickVoice; MicGranted 0; DataAvailable 0 []; ClickVoice]).

(** The example page without a marked filter button, the user's text hi
    sent: the chat request is promise 0. *)
Definition unmarked_chat_pending : State :=
  run_handler sendMessage
    (type_text "hi"
       (on_dom (fun d => set_filterButtons
                  (map (set_active false) (filterButtons d)) d) example_page)).

(** The example page without a marked filter button, one task shown and a
    click on its Complete button: the update is promise 1. *)
Definition unmarked_update_pending : State :=
  default example_page
    (run (run_handler init
            (on_dom (fun d => set_filterButtons
                       (map (set_active false) (filterButtons d)) d)
               example_page))
       [FetchSettled 0 (task_list (Some [task1])); ClickAction 0 0]).

(** The events other than those of the voice button, the microphone and
    the recorder's stop. *)
Definition plain_event (e : Event) : bool :=
  match e with
  | ClickVoice | MicGranted _ | MicDenied _ | StopEvent _ | TracksEnded _ => false
  | _ => true
  end.

(** Every message of [s] is still at its place in [s'], with the same
    class and avatar. *)
Definition chat_kept (s s' : State) : Prop :=
  forall i m,
    chatMessages (dom s) !! i = Some m ->
    exists m', chatMessages (dom s') !! i = Some m'
               /\ className m' = className m /\ avatar m' = avatar m.

(** No recorder, no pending microphone request, the voice button
    disabled. *)
Definition voice_off (s : State) : Prop :=
  disabled (voiceButton (dom s)) = true
  /\ asking (host s) = ∅
  /\ recorders (host s) = []
  /\ isRecording (vars s) = false.

(** * Properties *)

Local Open Scope list_scope.

(** ** Strings *)

Example trim_blank : Js.trim (String "009" (String "010" "   ")) = "".
Proof. reflexivity. Qed.

Example trim_inner : Js.trim "  buy milk  " = "buy milk".
Proof. reflexivity. Qed.

(* U+00A0 and U+2003 are white space as well. *)
Example trim_unicode :
  Js.trim (String "194" (String "160" (String "226" (String "128"
            (String "131" "x"))))) = "x".
Proof. reflexivity. Qed.

(** ** The monad's combinators *)

Ltac js :=
  repeat (cbn [bind ret throw try_catch gets modify when perform fst snd
               dom vars host on_dom on_vars on_host settled
               chatMessages userInput voiceButton tasksList filterButtons
               set_chatMessages set_userInput set_voiceButton set_tasksList
               set_filterButtons
               mediaRecorder audioChunks isRecording
               set_mediaRecorder set_audioChunks set_isRecording
               mediaDevices effects promises fetching asking recorders streams
               set_effects set_promises set_fetching set_asking set_recorders
               set_streams negb andb orb] in *).

(** ** C4: blank input *)

(** C4. When the trimmed value of the input field is empty, [sendMessage]
    returns at once and the state is the very same: no message is added,
    the input field keeps its value, no request is sent.  The same holds
    for the two events that call it, a click on the send button and the
    Enter key. *)
Theorem sendMessage_blank (s : State) :
  Js.trim (userInput (dom s)) = "" ->
  sendMessage s = (Ret tt, s)
  /\ step s ClickSend = Some s
  /\ step s (Keydown "Enter" false) = Some s.
Proof.
  intros Hblank.
  assert (Hsend : sendMessage s = (Ret tt, s)).
  { unfold sendMessage, bind, gets. rewrite Hblank. reflexivity. }
  repeat split; [exact Hsend | |].
  - cbn [step]. unfold run_handler. now rewrite Hsend.
  - cbn [step]. unfold run_handler, on_keydown.
    cbn [String.eqb Ascii.eqb Bool.eqb andb negb when]. now rewrite Hsend.
Qed.

Lemma sendMessage_blank_witness :
  sendMessage blank_page = (Ret tt, blank_page)
  /\ step blank_page ClickSend = Some blank_page
  /\ step blank_page (Keydown "Enter" false) = Some blank_page.
Proof.
  apply (sendMessage_blank blank_page). reflexivity.
Defined.

(** ** Settled requests *)

Lemma step_settled (s : State) (p : nat) (o : Settled) (site : Awaiting) :
  fetching (host s) !! p = Some site ->
  step s (FetchSettled p o) = Some (run_handler (resume site o) (settled p s)).
Proof. intros Hp. cbn [step]. now rewrite Hp. Qed.

Lemma failed_cases (o : Settled) :
  failed o = true ->
  o = NetworkError \/ exists payload, o = Response false payload.
Proof.
  destruct o as [|[] payload]; cbn; intros H; try discriminate; eauto.
Qed.

(** What the [catch] block of [fetchChatResponse] leaves behind. *)
Lemma fetchChatResponse_resume_failed (o : Settled) (s : State) :
  failed o = true ->
  fetchChatResponse_resume o s =
    (Ret tt,
     on_dom (fun d => set_chatMessages
               (chatMessages d ++ [message_div assistant (Some chat_fallback)]) d)
       (on_host (fun h => set_effects
                   (effects h ++ [ConsoleError "Error:" (failure_error o)]) h) s)).
Proof.
  intros H. destruct (failed_cases o H) as [-> | [payload ->]]; reflexivity.
Qed.

Lemma sendVoiceRecording_resume_failed (o : Settled) (s : State) :
  failed o = true ->
  sendVoiceRecording_resume o s =
    (Ret tt,
     on_dom (fun d => set_chatMessages
               (chatMessages d ++ [message_div assistant (Some voice_fallback)]) d)
       (on_host (fun h => set_effects
                   (effects h ++ [ConsoleError "Error processing voice:"
                                    (failure_error o)]) h) s)).
Proof.
  intros H. destruct (failed_cases o H) as [-> | [payload ->]]; reflexivity.
Qed.

(** ** C5: a failed chat request *)

(** C5. When the pending [/api/chat] request [p] fails (the promise is
    rejected, or the status is not a success), the handler appends exactly
    one message, the fixed assistant fallback; every message rendered
    before, the user's among them, stays where it was with the same
    content; the only new effect is the console report, so no request is
    sent again, and nothing is pending in place of [p]. *)
Theorem chat_failure_fallback (s : State) (p : nat) (o : Settled) :
  fetching (host s) !! p = Some InFetchChatResponse ->
  failed o = true ->
  exists s',
    step s (FetchSettled p o) = Some s'
    /\ chatMessages (dom s') =
         chatMessages (dom s)
           ++ [ {| className := "message assistant"; avatar := "🤖";
                   textContent :=
                     "Sorry, there was an error processing your request." |} ]
    /\ (forall i m, chatMessages (dom s) !! i = Some m ->
                    chatMessages (dom s') !! i = Some m)
    /\ effects (host s') =
         effects (host s) ++ [ConsoleError "Error:" (failure_error o)]
    /\ fetching (host s') = delete p (fetching (host s))
    /\ promises (host s') = promises (host s)
    /\ tasksList (dom s') = tasksList (dom s)
    /\ userInput (dom s') = userInput (dom s).
Proof.
  intros Hp Hfail. eexists. split.
  - rewrite (step_settled _ _ _ _ Hp). cbn [resume]. unfold run_handler.
    rewrite fetchChatResponse_resume_failed by exact Hfail. reflexivity.
  - js. repeat split; try reflexivity.
    intros i m Hi. now apply lookup_app_l_Some.
Qed.

Lemma chat_failure_fallback_witness :
  exists s',
    step chat_pending (FetchSettled 0 NetworkError) = Some s'
    /\ chatMessages (dom s') =
         chatMessages (dom chat_pending)
           ++ [ {| className := "message assistant"; avatar := "🤖";
                   textContent :=
                     "Sorry, there was an error processing your request." |} ]
    /\ (forall i m, chatMessages (dom chat_pending) !! i = Some m ->
                    chatMessages (dom s') !! i = Some m)
    /\ effects (host s') =
         effects (host chat_pending)
           ++ [ConsoleError "Error:" (failure_error NetworkError)]
    /\ fetching (host s') = delete 0 (fetching (host chat_pending))
    /\ promises (host s') = promises (host chat_pending)
    /\ tasksList (dom s') = tasksList (dom chat_pending)
    /\ userInput (dom s') = userInput (dom chat_pending).
Proof.
  apply (chat_failure_fallback chat_pending 0 NetworkError); reflexivity.
Defined.

(** The whole exchange: the user's text is rendered, one request is sent,
    and its failure adds the fallback and nothing else. *)
Lemma chat_exchange_failed (s : State) (o : Settled) :
  Js.trim (userInput (dom s)) <> "" ->
  failed o = true ->
  exists s',
    run s [ClickSend; FetchSettled (promises (host s)) o] = Some s'
    /\ chatMessages (dom s') =
         chatMessages (dom s)
           ++ [ message_div user (Some (Js.trim (userInput (dom s))));
                message_div assistant (Some chat_fallback) ]
    /\ effects (host s') =
         effects (host s)
           ++ [ Fetch (promises (host s))
                  (chat_request (Js.trim (userInput (dom s))));
                ConsoleError "Error:" (failure_error o) ].
Proof.
  intros Hne Hfail.
  assert (Hsend : sendMessage s =
    (Ret tt,
     on_host (fun h => set_promises (S (promises h))
                (set_fetching (<[promises h := InFetchChatResponse]> (fetching h)) h))
       (on_host (fun h => set_effects
                   (effects h ++ [Fetch (promises h)
                      (chat_request (Js.trim (userInput (dom s))))]) h)
          (on_dom (set_userInput "")
             (on_dom (fun d => set_chatMessages
                        (chatMessages d
                           ++ [message_div user (Some (Js.trim (userInput (dom s))))]) d)
                s))))).
  { unfold sendMessage, bind, gets.
    destruct (String.eqb_spec (Js.trim (userInput (dom s))) "") as [E|_];
      [contradiction|]. reflexivity. }
  eexists. split.
  - cbn [run].
    change (step s ClickSend) with (Some (run_handler sendMessage s)).
    unfold run_handler at 1. rewrite Hsend.
    erewrite step_settled; [|js; apply lookup_insert_eq].
    cbn [resume]. unfold run_handler.
    rewrite fetchChatResponse_resume_failed by exact Hfail. reflexivity.
  - js. split; [now rewrite <- app_assoc | now rewrite <- app_assoc].
Qed.

(** ** C8: a failed voice upload *)

(** C8. When the pending [/api/voice] upload [p] fails (rejected promise or
    a status that is not a success), exactly one message is appended, the
    fixed assistant fallback for voice; every earlier message, the
    processing placeholder among them, keeps its place and its text; the
    only new effect is the console report. *)
Theorem voice_failure_fallback (s : State) (p : nat) (o : Settled) :
  fetching (host s) !! p = Some InSendVoiceRecording ->
  failed o = true ->
  exists s',
    step s (FetchSettled p o) = Some s'
    /\ chatMessages (dom s') =
         chatMessages (dom s)
           ++ [ {| className := "message assistant"; avatar := "🤖";
                   textContent :=
                     "Sorry, there was an error processing your voice message." |} ]
    /\ (forall i m, chatMessages (dom s) !! i = Some m ->
                    chatMessages (dom s') !! i = Some m)
    /\ effects (host s') =
         effects (host s)
           ++ [ConsoleError "Error processing voice:" (failure_error o)]
    /\ fetching (host s') = delete p (fetching (host s)).
Proof.
  intros Hp Hfail. eexists. split.
  - rewrite (step_settled _ _ _ _ Hp). cbn [resume]. unfold run_handler.
    rewrite sendVoiceRecording_resume_failed by exact Hfail. reflexivity.
  - js. repeat split; try reflexivity.
    intros i m Hi. now apply lookup_app_l_Some.
Qed.

Lemma voice_failure_fallback_witness :
  exists s',
    step voice_pending (FetchSettled 1 (Response false NotJson)) = Some s'
    /\ chatMessages (dom s') =
         chatMessages (dom voice_pending)
           ++ [ {| className := "message assistant"; avatar := "🤖";
                   textContent :=
                     "Sorry, there was an error processing your voice message." |} ]
    /\ (forall i m, chatMessages (dom voice_pending) !! i = Some m ->
                    chatMessages (dom s') !! i = Some m)
    /\ effects (host s') =
         effects (host voice_pending)
           ++ [ConsoleError "Error processing voice:"
                 (failure_error (Response false NotJson))]
    /\ fetching (host s') = delete 1 (fetching (host voice_pending)).
Proof.
  apply (voice_failure_fallback voice_pending 1 (Response false NotJson));
    reflexivity.
Defined.

(** The placeholder of the example upload is still the processing text
    after the failure. *)
Example voice_failure_placeholder :
  (fun s => textContent <$> chatMessages (dom s))
    <$> step voice_pending (FetchSettled 1 NetworkError)
  = Some [ processing_text; voice_fallback ].
Proof. reflexivity. Qed.

(** ** C2: tasks extracted from a chat reply *)

Lemma fetchChatResponse_resume_ok (s : State) (text : option string)
    (n : option Z) (voice : option string) (tasks : option (list Task)) :
  fetchChatResponse_resume (Response true (JsonBody (JObject text n voice tasks))) s
  = if Js.gt0 n then
      match List.find active (filterButtons (dom s)) with
      | Some b =>
          (Ret tt,
           snd (loadTasks (dataset_filter b)
                  (snd (addMessageToUI assistant text s))))
      | None =>
          (Ret tt,
           snd (addMessageToUI assistant (Some chat_fallback)
                  (snd (console_error "Error:" TypeError
                          (snd (addMessageToUI assistant text s))))))
      end
    else (Ret tt, snd (addMessageToUI assistant text s)).
Proof.
  unfold fetchChatResponse_resume, try_catch, bind, await, check_ok, json,
    data_text, data_tasks_extracted, ret.
  cbn [fst snd negb addMessageToUI modify].
  destruct (Js.gt0 n); [|reflexivity].
  unfold when, activeFilter, bind, gets. cbn [dom on_dom filterButtons set_chatMessages].
  destruct (List.find active (filterButtons (dom s))); reflexivity.
Qed.



(** The same reply without extracted tasks sends nothing. *)
Example chat_reply_no_tasks :
  (fun s => List.filter is_fetch (effects (host s)))
    <$> step chat_pending (FetchSettled 0 (reply (Some "Hello!") (Some 0%Z) None))
  = Some [Fetch 0 (chat_request "hi")].
Proof. vm_compute. reflexivity. Qed.

(** Without an active button the lookup of the filter throws inside the
    [try]: the reply is rendered, then the fallback, and no reload is
    sent. *)
Lemma chat_success_no_active (s : State) (p : nat) (text : option string)
    (k : Z) (voice : option string) (tasks : option (list Task)) :
  fetching (host s) !! p = Some InFetchChatResponse ->
  List.find active (filterButtons (dom s)) = None ->
  (0 < k)%Z ->
  exists s',
    step s (FetchSettled p (Response true (JsonBody (JObject text (Some k) voice tasks))))
      = Some s'
    /\ chatMessages (dom s') =
         chatMessages (dom s)
           ++ [message_div assistant text;
               message_div assistant (Some chat_fallback)]
    /\ effects (host s') = effects (host s) ++ [ConsoleError "Error:" TypeError].
Proof.
  intros Hp Hb Hk. eexists. split.
  - rewrite (step_settled _ _ _ _ Hp). cbn [resume]. unfold run_handler.
    rewrite fetchChatResponse_resume_ok. cbn [Js.gt0].
    destruct (Z.ltb_spec 0 k); [|lia]. js. cbn [filterButtons]. rewrite Hb.
    reflexivity.
  - js. unfold addMessageToUI, console_error. js.
    split; [now rewrite <- app_assoc | reflexivity].
Qed.

(** ** Rendering the task list *)

Lemma forEach_append_card (tasks : list Task) (s : State) :
  forEach append_card tasks s =
    (Ret tt,
     on_dom (fun d => set_tasksList
               (tasksList d ++ map (fun t => Card (task_card t)) tasks) d) s).
Proof.
  revert s. induction tasks as [|t tasks IH]; intros [[] v h].
  - cbn. unfold ret, on_dom, set_tasksList. cbn. now rewrite app_nil_r.
  - cbn [forEach]. unfold bind. cbn [append_card modify]. rewrite IH.
    unfold on_dom, set_tasksList. cbn. now rewrite <- app_assoc.
Qed.

Lemma renderTasks_rendered (tasks : list Task) (s : State) :
  renderTasks tasks s = (Ret tt, on_dom (set_tasksList (rendered tasks)) s).
Proof.
  destruct tasks as [|t tasks]; [reflexivity|].
  unfold renderTasks. cbn [length Nat.eqb]. unfold bind, set_panel.
  cbn [modify]. rewrite forEach_append_card. reflexivity.
Qed.

Lemma loadTasks_resume_ok (s : State) (text : option string) (n : option Z)
    (voice : option string) (tasks : option (list Task)) :
  loadTasks_resume (Response true (JsonBody (JObject text n voice tasks))) s
  = (Ret tt, on_dom (set_tasksList (rendered (default [] tasks))) s).
Proof.
  unfold loadTasks_resume, try_catch, bind, await, check_ok, json, data_tasks, ret.
  cbn [fst snd negb]. now rewrite renderTasks_rendered.
Qed.

Lemma loadTasks_resume_failed (o : Settled) (s : State) :
  failed o = true ->
  loadTasks_resume o s =
    (Ret tt,
     on_dom (set_tasksList [error_loading])
       (on_host (fun h => set_effects
                   (effects h ++ [ConsoleError "Error loading tasks:"
                                    (failure_error o)]) h) s)).
Proof.
  intros H. destruct (failed_cases o H) as [-> | [payload ->]]; reflexivity.
Qed.

(** A card per task, in the order of the payload, with the one action its
    status allows. *)
Example rendered_two :
  rendered [task1; task2] =
    [ Card {| item_class := "task-item pending"; data_id := "1";
              item_description := "water the plants";
              meta_date := toLocaleString "2024-05-01T09:00:00";
              meta_status := "pending";
              actions := [ {| label := "Complete"; on_click_id := "1";
                              on_click_status := "completed" |} ] |};
      Card {| item_class := "task-item completed"; data_id := "2";
              item_description := "file the report";
              meta_date := toLocaleString "2024-05-02T10:30:00";
              meta_status := "completed";
              actions := [ {| label := "Reopen"; on_click_id := "2";
                              on_click_status := "pending" |} ] |} ].
Proof. reflexivity. Qed.

(** ** C9: the empty task list *)

(** C9. When the pending task query [p] succeeds and its payload has no
    tasks (an empty array, or no [tasks] field at all), the panel's
    children are replaced by the one empty-state paragraph, whatever was
    rendered before: its literal text is shown and no task card is
    left.  The chat and the effects are untouched. *)
Theorem empty_task_list (s : State) (p : nat) (text : option string)
    (n : option Z) (voice : option string) (tasks : option (list Task)) :
  fetching (host s) !! p = Some InLoadTasks ->
  tasks = Some [] \/ tasks = None ->
  exists s',
    step s (FetchSettled p (Response true (JsonBody (JObject text n voice tasks))))
      = Some s'
    /\ tasksList (dom s') =
         [Para "no-tasks" "No tasks yet. Ask me to remind you about something!"]
    /\ List.filter is_card (tasksList (dom s')) = []
    /\ chatMessages (dom s') = chatMessages (dom s)
    /\ effects (host s') = effects (host s).
Proof.
  intros Hp Hempty. eexists. split.
  - rewrite (step_settled _ _ _ _ Hp). cbn [resume]. unfold run_handler.
    rewrite loadTasks_resume_ok. reflexivity.
  - js. destruct Hempty as [-> | ->]; repeat split; reflexivity.
Qed.

Lemma empty_task_list_witness :
  exists s',
    step filter_pending
      (FetchSettled 1 (Response true (JsonBody (JObject None None None (Some [])))))
      = Some s'
    /\ tasksList (dom s') =
         [Para "no-tasks" "No tasks yet. Ask me to remind you about something!"]
    /\ List.filter is_card (tasksList (dom s')) = []
    /\ chatMessages (dom s') = chatMessages (dom filter_pending)
    /\ effects (host s') = effects (host filter_pending).
Proof.
  apply (empty_task_list filter_pending 1 None None None (Some []));
    [reflexivity | left; reflexivity].
Defined.

(** Two cards were shown on the example page before the empty answer. *)
Example filter_pending_cards :
  length (List.filter is_card (tasksList (dom filter_pending))) = 2.
Proof. reflexivity. Qed.

(** ** Updating a task *)

Lemma updateTaskStatus_resume_ok (s : State) (payload : ResponseBody) :
  updateTaskStatus_resume (Response true payload) s =
    match List.find active (filterButtons (dom s)) with
    | Some b => (Ret tt, snd (loadTasks (dataset_filter b) s))
    | None => (Ret tt, snd (console_error "Error updating task:" TypeError s))
    end.
Proof.
  unfold updateTaskStatus_resume, try_catch, bind, await, check_ok, ret.
  cbn [fst snd negb]. unfold activeFilter, bind, gets.
  destruct (List.find active (filterButtons (dom s))); reflexivity.
Qed.

Lemma updateTaskStatus_resume_failed (o : Settled) (s : State) :
  failed o = true ->
  updateTaskStatus_resume o s =
    (Ret tt, snd (console_error "Error updating task:" (failure_error o) s)).
Proof.
  intros H. destruct (failed_cases o H) as [-> | [payload ->]]; reflexivity.
Qed.

(** On the example page: the first card's Complete button sends the update
    for task 1; after its success and the reload's answer the panel shows
    what the reload returned. *)
Example update_then_reload :
  (fun s => (tasksList (dom s), List.filter is_fetch (effects (host s))))
    <$> run update_pending
          [ FetchSettled 1 (Response true NotJson);
            FetchSettled 2 (task_list (Some [task2])) ]
  = Some (rendered [task2],
          [ Fetch 0 (tasks_request "all");
            Fetch 1 (update_request "1" "completed");
            Fetch 2 (tasks_request "all") ]).
Proof. reflexivity. Qed.

(** ** A successful voice upload *)

(** The message [sendVoiceRecording] rewrites is the last one of the chat
    list at the time the answer arrives. *)
Lemma sendVoiceRecording_resume_ok (s : State) (text : option string)
    (n : option Z) (voice : option string) (tasks : option (list Task))
    (ms : list Message) (m : Message) :
  chatMessages (dom s) = ms ++ [m] ->
  exists s' rest,
    sendVoiceRecording_resume
      (Response true (JsonBody (JObject text n voice tasks))) s = (Ret tt, s')
    /\ chatMessages (dom s') =
         ms ++ [set_text (Js.or_else text not_transcribed) m;
                message_div assistant text] ++ rest
    /\ (Js.gt0 n = false \/ is_Some (List.find active (filterButtons (dom s))) ->
        rest = []).
Proof.
  intros Hchat.
  unfold sendVoiceRecording_resume, try_catch, bind, await, check_ok, json,
    data_text, data_voice_data, data_tasks_extracted, ret, gets.
  cbn [fst snd negb]. rewrite Hchat, length_app. cbn [length].
  rewrite Nat.add_1_r. cbn [modify addMessageToUI].
  assert (Halter : forall f, alter f (length ms) (ms ++ [m]) = ms ++ [f m]).
  { intros f. rewrite <- (Nat.add_0_r (length ms)) at 1.
    now rewrite (alter_app_r f ms [m] 0). }
  destruct (Js.truthy voice) eqn:Hvoice; cbn [when playAudioResponse perform modify];
    (destruct (Js.gt0 n) eqn:Hn; cbn [when];
     [ unfold activeFilter, bind, gets; js; cbn [filterButtons];
       destruct (List.find active (filterButtons (dom s))) as [b|] eqn:Hb
     | ]).
  all: eexists; eexists; (split; [reflexivity|]); js; cbn [chatMessages];
    rewrite ?Hchat, ?Halter.
  all: try (split; [rewrite <- ?app_assoc; cbn [app]; rewrite ?app_nil_r; reflexivity|]).
  all: try (intros _; reflexivity).
  all: intros [[=] | [b' [=]]].
Qed.

(** ** C10: the reply to a voice message *)

(** What a successful answer to the pending upload [p] writes into the
    chat, whatever the last message [m] of the list is: [m] keeps its
    class and avatar and gets the answer's [text] as its text, or the
    fixed fallback when [text] is empty or missing; the assistant message
    appended after it carries the [text] field as it is, the empty text
    when the field is empty or missing.  No other field of the answer is
    rendered.  [rest] is empty unless tasks were extracted and no filter
    button is active. *)
Lemma voice_reply_is_text_field (s : State) (p : nat) (text : option string)
    (n : option Z) (voice : option string) (tasks : option (list Task))
    (ms : list Message) (m : Message) :
  fetching (host s) !! p = Some InSendVoiceRecording ->
  chatMessages (dom s) = ms ++ [m] ->
  exists s' rest,
    step s (FetchSettled p (Response true (JsonBody (JObject text n voice tasks))))
      = Some s'
    /\ chatMessages (dom s') =
         ms ++ [ {| className := className m; avatar := avatar m;
                    textContent :=
                      match text with
                      | Some (String c t) => String c t
                      | _ => "(Could not transcribe audio)"
                      end |};
                 {| className := "message assistant"; avatar := "🤖";
                    textContent :=
                      match text with Some t => t | None => "" end |} ] ++ rest
    /\ ((match n with Some k => (k <= 0)%Z | None => True end)
        \/ (exists b, List.find active (filterButtons (dom s)) = Some b) ->
        rest = []).
Proof.
  intros Hp Hchat.
  destruct (sendVoiceRecording_resume_ok (settled p s) text n voice tasks ms m Hchat)
    as (s' & rest & Hrun & Hmsgs & Hrest).
  exists s', rest. split; [|split].
  - rewrite (step_settled _ _ _ _ Hp). cbn [resume]. unfold run_handler.
    now rewrite Hrun.
  - rewrite Hmsgs. destruct text as [[|c t]|]; reflexivity.
  - intros [Hn | [b Hb]]; apply Hrest.
    + left. destruct n as [k|]; [|reflexivity]. cbn [Js.gt0].
      now apply Z.ltb_ge.
    + right. change (filterButtons (dom (settled p s)))
        with (filterButtons (dom s)). rewrite Hb. now exists b.
Qed.

Lemma voice_reply_is_text_field_witness :
  exists s' rest,
    step voice_pending
      (FetchSettled 1 (Response true (JsonBody (JObject (Some "") None None None))))
      = Some s'
    /\ chatMessages (dom s') =
         [] ++ [ {| className := "message user"; avatar := "👤";
                    textContent := "(Could not transcribe audio)" |};
                 {| className := "message assistant"; avatar := "🤖";
                    textContent := "" |} ] ++ rest
    /\ rest = [].
Proof.
  destruct (voice_reply_is_text_field voice_pending 1 (Some "") None None None []
              (message_div user (Some processing_text)) eq_refl eq_refl)
    as (s' & rest & Hstep & Hchat & Hrest).
  exists s', rest. split; [exact Hstep|]. split; [exact Hchat|].
  apply Hrest. left. exact I.
Defined.

(** C10. On the example page the user records a clip, and while its upload
    (promise 1) is pending types hi and sends it.  The answer to the
    upload is a success with an empty [text].  The assistant message
    appended carries the empty text, as the claim says; the fallback
    (Could not transcribe audio), however, is written into the last
    message of the list, the user's hi, and the processing placeholder
    keeps its text: the placeholder does not receive the fallback. *)
Theorem voice_empty_reply_misses_placeholder :
  (fun s => chatMessages (dom s))
    <$> run voice_pending
          [ Typed "hi"; ClickSend; FetchSettled 1 (reply (Some "") None None) ]
  = Some [ {| className := "message user"; avatar := "👤";
              textContent := "🎤 Processing voice message..." |};
           {| className := "message user"; avatar := "👤";
              textContent := "(Could not transcribe audio)" |};
           {| className := "message assistant"; avatar := "🤖";
              textContent := "" |} ].
Proof. vm_compute. reflexivity. Qed.

(** The example upload answered with an empty text. *)
Example voice_reply_empty :
  (fun s => chatMessages (dom s))
    <$> step voice_pending (FetchSettled 1 (reply (Some "") None None))
  = Some [ {| className := "message user"; avatar := "👤";
              textContent := "(Could not transcribe audio)" |};
           {| className := "message assistant"; avatar := "🤖";
              textContent := "" |} ].
Proof. reflexivity. Qed.

(** ** C3: which message the transcription replaces *)

(** Nothing rendered since the upload began: the placeholder is the last
    message and receives the transcription. *)
Example voice_reply_in_order :
  (fun s => chatMessages (dom s))
    <$> step voice_pending
          (FetchSettled 1 (reply (Some "remind me at noon") None None))
  = Some [ {| className := "message user"; avatar := "👤";
              textContent := "remind me at noon" |};
           {| className := "message assistant"; avatar := "🤖";
              textContent := "remind me at noon" |} ].
Proof. reflexivity. Qed.

(** C3. On the example page the user records a clip, and while its upload
    (promise 1) is pending types hi and sends it.  Before the answer the
    chat holds the placeholder and the user's hi.  The successful answer
    with the transcription then rewrites the last message, the user's hi;
    the processing placeholder keeps its text. *)
Theorem voice_reply_rewrites_last_message :
  (fun s => chatMessages (dom s))
    <$> run voice_pending [Typed "hi"; ClickSend]
  = Some [ {| className := "message user"; avatar := "👤";
              textContent := "🎤 Processing voice message..." |};
           {| className := "message user"; avatar := "👤";
              textContent := "hi" |} ]
  /\ (fun s => chatMessages (dom s))
       <$> run voice_pending
             [ Typed "hi"; ClickSend;
               FetchSettled 1 (reply (Some "remind me at noon") None None) ]
     = Some [ {| className := "message user"; avatar := "👤";
                 textContent := "🎤 Processing voice message..." |};
              {| className := "message user"; avatar := "👤";
                 textContent := "remind me at noon" |};
              {| className := "message assistant"; avatar := "🤖";
                 textContent := "remind me at noon" |} ].
Proof. split; reflexivity. Qed.

(** ** C7: the filter buttons *)

Lemma keeps_ret {A} (a : A) : keeps_marks (ret a).
Proof. intros s. reflexivity. Qed.

Lemma keeps_throw {A} (e : JsError) : keeps_marks (@throw A e).
Proof. intros s. reflexivity. Qed.

Lemma keeps_gets {A} (f : State -> A) : keeps_marks (gets f).
Proof. intros s. reflexivity. Qed.

Lemma keeps_modify (f : State -> State) :
  (forall s, filterButtons (dom (f s)) = filterButtons (dom s)) ->
  keeps_marks (modify f).
Proof. intros H s. apply H. Qed.

Lemma keeps_bind {A B} (m : M A) (k : A -> M B) :
  keeps_marks m -> (forall a, keeps_marks (k a)) -> keeps_marks (bind m k).
Proof.
  intros Hm Hk s. unfold bind. specialize (Hm s).
  destruct (m s) as [[a|e] s1]; cbn [snd] in *.
  - now rewrite Hk.
  - exact Hm.
Qed.

Lemma keeps_try_catch {A} (m : M A) (h : JsError -> M A) :
  keeps_marks m -> (forall e, keeps_marks (h e)) -> keeps_marks (try_catch m h).
Proof.
  intros Hm Hh s. unfold try_catch. specialize (Hm s).
  destruct (m s) as [[a|e] s1]; cbn [snd] in *.
  - exact Hm.
  - now rewrite Hh.
Qed.

Lemma keeps_when (b : bool) (m : M unit) :
  keeps_marks m -> keeps_marks (when b m).
Proof. intros Hm. destruct b; [exact Hm | apply keeps_ret]. Qed.

Lemma keeps_forEach {A} (f : A -> M unit) (l : list A) :
  (forall a, keeps_marks (f a)) -> keeps_marks (forEach f l).
Proof.
  intros Hf. induction l as [|a l IH]; cbn [forEach].
  - apply keeps_ret.
  - apply keeps_bind; [apply Hf | intros _; exact IH].
Qed.

Ltac keeps_step :=
  first
    [ apply keeps_ret | apply keeps_throw | apply keeps_gets
    | apply keeps_bind | apply keeps_try_catch | apply keeps_when
    | apply keeps_forEach
    | apply keeps_modify; intros ?; reflexivity
    | match goal with
      | |- keeps_marks (match ?x with _ => _ end) => destruct x
      | |- keeps_marks (if ?b then _ else _) => destruct b
      | |- forall _, _ => intros ?
      end ].

Ltac keeps := repeat keeps_step.

Lemma keeps_perform (e : Effect) : keeps_marks (perform e).
Proof. unfold perform. keeps. Qed.

Lemma keeps_fetch (site : Awaiting) (r : Request) : keeps_marks (fetch site r).
Proof. unfold fetch. keeps; apply keeps_perform. Qed.

Lemma keeps_addMessageToUI (who : Sender) (content : option string) :
  keeps_marks (addMessageToUI who content).
Proof. unfold addMessageToUI. keeps. Qed.

Lemma keeps_loadTasks (flt : string) : keeps_marks (loadTasks flt).
Proof. apply keeps_fetch. Qed.

Lemma keeps_activeFilter : keeps_marks activeFilter.
Proof. unfold activeFilter. keeps. Qed.

Lemma keeps_renderTasks (tasks : list Task) : keeps_marks (renderTasks tasks).
Proof. unfold renderTasks, set_panel, append_card. keeps. Qed.

Lemma keeps_sendMessage : keeps_marks sendMessage.
Proof.
  unfold sendMessage, fetchChatResponse.
  keeps; first [apply keeps_addMessageToUI | apply keeps_fetch].
Qed.

Lemma keeps_resume (site : Awaiting) (o : Settled) : keeps_marks (resume site o).
Proof.
  destruct site; cbn [resume];
    unfold fetchChatResponse_resume, loadTasks_resume, updateTaskStatus_resume,
      sendVoiceRecording_resume, await, check_ok, json, data_text, data_tasks,
      data_tasks_extracted, data_voice_data, console_error, set_panel,
      playAudioResponse;
    keeps;
    first [ apply keeps_addMessageToUI | apply keeps_loadTasks
          | apply keeps_activeFilter | apply keeps_perform
          | apply keeps_renderTasks ].
Qed.

Lemma keeps_toggleVoiceRecording : keeps_marks toggleVoiceRecording.
Proof.
  unfold toggleVoiceRecording, startRecording, stopRecording, getUserMedia,
    recorder_stop, set_recorder_state, set_button.
  keeps; apply keeps_perform.
Qed.

Lemma keeps_startRecording_then (st : nat) : keeps_marks (startRecording_then st).
Proof.
  unfold startRecording_then, new_MediaRecorder, recorder_start,
    set_recorder_state, set_button.
  keeps; apply keeps_perform.
Qed.

Lemma keeps_startRecording_catch (e : JsError) :
  keeps_marks (startRecording_catch e).
Proof. unfold startRecording_catch, console_error. keeps; apply keeps_perform. Qed.

Lemma keeps_on_stop (st : nat) : keeps_marks (on_stop st).
Proof.
  unfold on_stop, sendVoiceRecording.
  keeps; first [apply keeps_addMessageToUI | apply keeps_fetch | apply keeps_perform].
Qed.

Lemma run_handler_keeps (m : M unit) (s : State) :
  keeps_marks m ->
  filterButtons (dom (run_handler m s)) = filterButtons (dom s).
Proof.
  intros Hm. unfold run_handler. specialize (Hm s).
  destruct (m s) as [[[]|e] s1]; exact Hm.
Qed.

(** Only a click on a filter button changes the marks. *)
Lemma step_keeps_marks (s s' : State) (e : Event) :
  step s e = Some s' ->
  (forall i, e <> ClickFilter i) ->
  filterButtons (dom s') = filterButtons (dom s).
Proof.
  intros Hstep Hclick. destruct e; cbn [step] in Hstep.
  - injection Hstep as <-. reflexivity.
  - injection Hstep as <-. apply run_handler_keeps, keeps_sendMessage.
  - injection Hstep as <-. apply run_handler_keeps.
    unfold on_keydown. apply keeps_when, keeps_sendMessage.
  - destruct (disabled (voiceButton (dom s))); [discriminate|].
    injection Hstep as <-. apply run_handler_keeps, keeps_toggleVoiceRecording.
  - now contradiction (Hclick i).
  - destruct (action_at s card button); [|discriminate].
    injection Hstep as <-. apply run_handler_keeps, keeps_fetch.
  - destruct (fetching (host s) !! p); [|discriminate].
    injection Hstep as <-. rewrite run_handler_keeps by apply keeps_resume.
    reflexivity.
  - destruct (bool_decide (p ∈ asking (host s))); [|discriminate].
    injection Hstep as <-. rewrite run_handler_keeps; [reflexivity|].
    apply keeps_try_catch;
      [apply keeps_startRecording_then | apply keeps_startRecording_catch].
  - destruct (bool_decide (p ∈ asking (host s))); [|discriminate].
    injection Hstep as <-. rewrite run_handler_keeps; [reflexivity|].
    apply keeps_startRecording_catch.
  - destruct (recorders (host s) !! r) as [[st []]|]; try discriminate;
      injection Hstep as <-; apply run_handler_keeps;
      unfold on_dataavailable; keeps.
  - destruct (recorders (host s) !! r) as [[st []]|]; try discriminate.
    injection Hstep as <-. rewrite run_handler_keeps by apply keeps_on_stop.
    reflexivity.
  - destruct (recorders (host s) !! r) as [[st []]|]; try discriminate.
    injection Hstep as <-. reflexivity.
Qed.

Lemma filter_unmarked (l : list FilterButton) :
  List.filter active (map (set_active false) l) = [].
Proof. induction l as [|b l IH]; [reflexivity | exact IH]. Qed.

Lemma marks_after_click (l : list FilterButton) (i : nat) (b : FilterButton) :
  l !! i = Some b ->
  List.filter active (alter (set_active true) i (map (set_active false) l))
  = [set_active true b].
Proof.
  revert i. induction l as [|x l IH]; intros [|i] Hi; try discriminate.
  - injection Hi as ->. cbn. now rewrite filter_unmarked.
  - cbn. now apply IH.
Qed.

Lemma clicked_lookup (l : list FilterButton) (i : nat) (b : FilterButton) :
  l !! i = Some b ->
  alter (set_active true) i (map (set_active false) l) !! i
  = Some (set_active true b).
Proof.
  revert i. induction l as [|x l IH]; intros [|i] Hi; try discriminate.
  - injection Hi as ->. reflexivity.
  - cbn. now apply IH.
Qed.

Lemma on_filter_click_run (s : State) (i : nat) (b : FilterButton) :
  filterButtons (dom s) !! i = Some b ->
  on_filter_click i s =
    (Ret tt,
     snd (loadTasks (dataset_filter b)
            (on_dom (fun d => set_filterButtons
                       (alter (set_active true) i
                          (map (set_active false) (filterButtons (dom s)))) d) s))).
Proof.
  intros Hi. unfold on_filter_click, bind, gets. cbn [modify].
  js. cbn [filterButtons]. rewrite (clicked_lookup _ _ _ Hi). reflexivity.
Qed.

Lemma step_one_active (s s' : State) (e : Event) :
  step s e = Some s' -> one_active s -> one_active s'.
Proof.
  intros Hstep Hone.
  destruct (match e with ClickFilter i => Some i | _ => None end) as [i|] eqn:He.
  - destruct e; try discriminate. injection He as ->.
    cbn [step] in Hstep.
    destruct (filterButtons (dom s) !! i) as [b|] eqn:Hi; [|discriminate].
    injection Hstep as <-. unfold run_handler.
    rewrite (on_filter_click_run _ _ _ Hi). unfold one_active.
    rewrite keeps_loadTasks. js. cbn [filterButtons].
    now rewrite (marks_after_click _ _ _ Hi).
  - unfold one_active. rewrite (step_keeps_marks s s' e Hstep); [exact Hone|].
    intros i ->. discriminate.
Qed.

Lemma run_one_active (es : list Event) (s s' : State) :
  run s es = Some s' -> one_active s -> one_active s'.
Proof.
  revert s. induction es as [|e es IH]; intros s Hrun Hone; cbn [run] in Hrun.
  - now injection Hrun as <-.
  - destruct (step s e) as [s1|] eqn:Hstep; [|discriminate].
    eapply IH; [exact Hrun|]. eapply step_one_active; eassumption.
Qed.

(** C7, as the script has it.  On a page that starts with exactly one
    filter button marked active, exactly one is marked after every run of
    events.  A click on button [i] unmarks all buttons, marks [i], and
    sends exactly one request, the task query for [i]'s filter; when that
    query is answered next, the panel shows the answer while [i] is the
    marked button.  Whenever a pending task query is answered, whichever
    it is, the panel shows that answer and the marks stay as they are: the
    panel follows the query answered last. *)
Theorem filter_click_marks_and_reloads (s : State) :
  one_active s ->
  (forall es s', run s es = Some s' -> one_active s')
  /\ (forall i b,
        filterButtons (dom s) !! i = Some b ->
        exists s1,
          step s (ClickFilter i) = Some s1
          /\ filterButtons (dom s1) =
               alter (set_active true) i
                 (map (set_active false) (filterButtons (dom s)))
          /\ List.filter active (filterButtons (dom s1)) = [set_active true b]
          /\ effects (host s1) =
               effects (host s)
                 ++ [Fetch (promises (host s)) (tasks_request (dataset_filter b))]
          /\ forall text n voice ts,
               exists s2,
                 step s1 (FetchSettled (promises (host s))
                            (Response true (JsonBody (JObject text n voice ts))))
                   = Some s2
                 /\ tasksList (dom s2) = rendered (default [] ts)
                 /\ List.filter active (filterButtons (dom s2))
                    = [set_active true b])
  /\ (forall p text n voice ts,
        fetching (host s) !! p = Some InLoadTasks ->
        exists s1,
          step s (FetchSettled p (Response true (JsonBody (JObject text n voice ts))))
            = Some s1
          /\ tasksList (dom s1) = rendered (default [] ts)
          /\ filterButtons (dom s1) = filterButtons (dom s)).
Proof.
  intros Hone. split; [|split].
  - intros es s' Hrun. exact (run_one_active es s s' Hrun Hone).
  - intros i b Hi. eexists. split.
    + cbn [step]. rewrite Hi. unfold run_handler.
      rewrite (on_filter_click_run _ _ _ Hi). reflexivity.
    + js. cbn [filterButtons]. split; [reflexivity|]. split.
      { exact (marks_after_click _ _ _ Hi). }
      split; [reflexivity|].
      intros text n voice ts. eexists. split.
      * erewrite step_settled; [|js; apply lookup_insert_eq].
        cbn [resume]. unfold run_handler. rewrite loadTasks_resume_ok.
        reflexivity.
      * js. cbn [tasksList filterButtons]. split; [reflexivity|].
        exact (marks_after_click _ _ _ Hi).
  - intros p text n voice ts Hp. eexists. split.
    + rewrite (step_settled _ _ _ _ Hp). cbn [resume]. unfold run_handler.
      rewrite loadTasks_resume_ok. reflexivity.
    + split; reflexivity.
Qed.

Lemma filter_click_marks_and_reloads_witness :
  one_active loaded_page
  /\ (forall es s', run loaded_page es = Some s' -> one_active s')
  /\ exists s1,
       step loaded_page (ClickFilter 1) = Some s1
       /\ List.filter active (filterButtons (dom s1))
          = [ {| dataset_filter := "pending"; active := true |} ]
       /\ effects (host s1) =
            effects (host loaded_page) ++ [Fetch 1 (tasks_request "pending")].
Proof.
  assert (Hone : one_active loaded_page) by reflexivity.
  destruct (filter_click_marks_and_reloads loaded_page Hone) as (Hrun & Hclick & _).
  split; [exact Hone|]. split; [exact Hrun|].
  destruct (Hclick 1 {| dataset_filter := "pending"; active := false |} eq_refl)
    as (s1 & Hstep & _ & Hmarks & Heffects & _).
  exists s1. repeat split; assumption.
Defined.

(** C7 as stated fails.  The backend answers every task query by status.
    On the loaded example page the user clicks the pending filter (query
    1) and then the completed filter (query 2); query 2 is answered first
    and query 1 after it.  Nothing is pending any more, the completed
    button is the active one, and the panel shows the pending task: it
    does not show what the backend holds for the active filter. *)
Lemma stale_answer_shown :
  exists s',
    run loaded_page
      [ FetchSettled 0 (task_list (Some (backend "all")));
        ClickFilter 1;
        ClickFilter 2;
        FetchSettled 2 (task_list (Some (backend "completed")));
        FetchSettled 1 (task_list (Some (backend "pending"))) ] = Some s'
    /\ fetching (host s') = ∅
    /\ List.filter is_fetch (effects (host s')) =
         [ Fetch 0 (tasks_request "all");
           Fetch 1 (tasks_request "pending");
           Fetch 2 (tasks_request "completed") ]
    /\ filterButtons (dom s') =
         [ {| dataset_filter := "all"; active := false |};
           {| dataset_filter := "pending"; active := false |};
           {| dataset_filter := "completed"; active := true |} ]
    /\ tasksList (dom s') = rendered [task1]
    /\ ~ shows_active_filter backend s'.
Proof.
  eexists. split; [vm_compute; reflexivity|].
  split; [vm_compute; reflexivity|]. split; [vm_compute; reflexivity|].
  split; [vm_compute; reflexivity|]. split; [vm_compute; reflexivity|].
  intros H.
  specialize (H {| dataset_filter := "completed"; active := true |} eq_refl).
  vm_compute in H. discriminate H.
Qed.

(** ** C1: the recorder *)

Lemma alter_last {A} (f : A -> A) (l : list A) (x : A) :
  alter f (length l) (l ++ [x]) = l ++ [f x].
Proof.
  rewrite <- (Nat.add_0_r (length l)) at 1. now rewrite (alter_app_r f l [x] 0).
Qed.

Lemma Dom_eq (a b : Dom) :
  chatMessages a = chatMessages b -> userInput a = userInput b ->
  voiceButton a = voiceButton b -> tasksList a = tasksList b ->
  filterButtons a = filterButtons b -> a = b.
Proof. destruct a, b; cbn; congruence. Qed.

Lemma Vars_eq (a b : Vars) :
  mediaRecorder a = mediaRecorder b -> audioChunks a = audioChunks b ->
  isRecording a = isRecording b -> a = b.
Proof. destruct a, b; cbn; congruence. Qed.

Lemma Host_eq (a b : Host) :
  mediaDevices a = mediaDevices b -> effects a = effects b ->
  promises a = promises b -> fetching a = fetching b ->
  asking a = asking b -> recorders a = recorders b ->
  streams a = streams b -> a = b.
Proof. destruct a, b; cbn; congruence. Qed.

Lemma State_eq (a b : State) :
  dom a = dom b -> vars a = vars b -> host a = host b -> a = b.
Proof. destruct a, b; cbn; congruence. Qed.

(** Splits an equation between states into one equation per field. *)
Ltac fields :=
  apply State_eq; [apply Dom_eq | apply Vars_eq | apply Host_eq]; js;
  try reflexivity.

Lemma step_start_click (s : State) :
  isRecording (vars s) = false ->
  disabled (voiceButton (dom s)) = false ->
  mediaDevices (host s) = true ->
  step s ClickVoice =
    Some (on_host (fun h =>
            set_promises (S (promises h))
              (set_asking ({[ promises h ]} ∪ asking h)
                 (set_effects (effects h ++ [GetUserMedia (promises h)]) h))) s).
Proof.
  intros Hidle Hdis Hmd. cbn [step]. rewrite Hdis.
  unfold run_handler, toggleVoiceRecording, startRecording, getUserMedia,
    bind, gets.
  cbv beta. rewrite !Hidle. cbv beta iota. rewrite Hmd. reflexivity.
Qed.

Lemma step_granted (s : State) (p : nat) :
  p ∈ asking (host s) ->
  step s (MicGranted p) =
    Some (on_dom (fun d =>
            set_voiceButton
              {| disabled := disabled (voiceButton d); vb_text := "⏹️";
                 title := "Stop recording"; recording := true |} d)
         (on_vars (fun _ =>
            {| mediaRecorder := Some (length (recorders (host s)));
               audioChunks := []; isRecording := true |})
         (on_host (fun h =>
            set_effects (effects h ++ [RecorderStart (length (recorders h))])
              (set_recorders
                 (recorders h ++ [ {| stream := length (streams h);
                                      state := Recording |} ])
                 (set_streams (streams h ++ [true])
                    (set_asking (asking h ∖ {[ p ]}) h)))) s))).
Proof.
  intros Hp. cbn [step]. rewrite bool_decide_eq_true_2 by exact Hp.
  unfold run_handler, try_catch, startRecording_then, new_MediaRecorder,
    recorder_start, set_recorder_state, set_button, bind, gets, modify, ret.
  js. cbn [recorders].
  rewrite (list_lookup_middle (recorders (host s)) [] _ _ eq_refl).
  unfold bind, modify, perform. js.
  f_equal. fields. now rewrite (alter_last _ (recorders (host s))).
Qed.

Lemma run_dataavailable (cs : list Chunk) (s : State) (ac : list Chunk)
    (r st : nat) (x : RecorderState) (rest : list Event) :
  recorders (host s) !! r = Some {| stream := st; state := x |} ->
  x <> Inactive ->
  run (on_vars (set_audioChunks ac) s) (map (DataAvailable r) cs ++ rest)
  = run (on_vars (set_audioChunks (ac ++ cs)) s) rest.
Proof.
  intros Hr Hx. revert ac. induction cs as [|c cs IH]; intros ac.
  - cbn [map app]. now rewrite app_nil_r.
  - cbn [map app run]. cbn [step host on_vars]. rewrite Hr.
    destruct x; [| |contradiction];
      (transitivity
         (run (on_vars (set_audioChunks (ac ++ [c])) s)
              (map (DataAvailable r) cs ++ rest));
       [reflexivity | rewrite IH; now rewrite <- app_assoc]).
Qed.

Lemma step_stop_click (s : State) (r st : nat) :
  isRecording (vars s) = true ->
  disabled (voiceButton (dom s)) = false ->
  mediaRecorder (vars s) = Some r ->
  recorders (host s) !! r = Some {| stream := st; state := Recording |} ->
  step s ClickVoice =
    Some (on_dom (fun d =>
            set_voiceButton
              {| disabled := disabled (voiceButton d); vb_text := "🎤";
                 title := "Voice Input"; recording := false |} d)
         (on_vars (set_isRecording false)
         (on_host (fun h =>
            set_effects (effects h ++ [RecorderStop r])
              (set_recorders
                 (alter (fun x => {| stream := stream x; state := Stopping |}) r
                    (recorders h)) h)) s))).
Proof.
  intros Hrec Hdis Hmr Hr. cbn [step]. rewrite Hdis.
  unfold run_handler, toggleVoiceRecording, stopRecording, recorder_stop,
    bind, gets.
  cbv beta. rewrite !Hrec. cbv beta iota. cbn [negb]. rewrite Hmr, Hr.
  reflexivity.
Qed.

Lemma step_stop_event (s : State) (r st : nat) :
  recorders (host s) !! r = Some {| stream := st; state := Stopping |} ->
  step s (StopEvent r) =
    Some (on_host (fun h =>
            set_effects
              (effects h
                 ++ [ Fetch (promises h)
                        (voice_request {| parts := audioChunks (vars s);
                                          mime := "audio/mp3" |});
                      StopTracks st ])
              (set_promises (S (promises h))
                 (set_fetching (<[promises h := InSendVoiceRecording]> (fetching h))
                    (set_streams (<[st := false]> (streams h))
                       (set_recorders
                          (alter (fun x => {| stream := stream x; state := Inactive |})
                             r (recorders h)) h)))))
         (on_dom (fun d =>
            set_chatMessages
              (chatMessages d ++ [message_div user (Some processing_text)]) d) s)).
Proof.
  intros Hr. cbn [step]. rewrite Hr.
  unfold run_handler, on_stop, sendVoiceRecording, addMessageToUI, fetch,
    perform, set_recorder_state, bind, gets, modify.
  cbn [fst snd]. f_equal. fields. now rewrite <- app_assoc.
Qed.

Lemma uploads_app (l l' : list Effect) : uploads (l ++ l') = uploads l + uploads l'.
Proof. unfold uploads. now rewrite List.filter_app, length_app. Qed.

Lemma releases_app (l l' : list Effect) :
  releases (l ++ l') = releases l + releases l'.
Proof. unfold releases. now rewrite List.filter_app, length_app. Qed.

(** C1, as the script has it.  From an idle recorder: a toggle asks for the
    microphone; once that request is granted the recorder runs; the next
    toggle stops it, and when the recorder's stop event is dispatched the
    clip (all chunks delivered before and during the stop, in order) is
    uploaded with exactly one request and the granted stream is released
    exactly once.  No other request and no other release happens in the
    run.  [stopRecording] on an idle recorder and [startRecording] on a
    running one return at once and leave the state as it is. *)
Theorem start_then_stop_uploads_once (s : State) (before during : list Chunk) :
  isRecording (vars s) = false ->
  disabled (voiceButton (dom s)) = false ->
  mediaDevices (host s) = true ->
  (exists s',
     run s ([ClickVoice; MicGranted (promises (host s))]
              ++ map (DataAvailable (length (recorders (host s)))) before
              ++ [ClickVoice]
              ++ map (DataAvailable (length (recorders (host s)))) during
              ++ [StopEvent (length (recorders (host s)))]) = Some s'
     /\ effects (host s') =
          effects (host s)
            ++ [ GetUserMedia (promises (host s));
                 RecorderStart (length (recorders (host s)));
                 RecorderStop (length (recorders (host s)));
                 Fetch (S (promises (host s)))
                   (voice_request {| parts := before ++ during;
                                     mime := "audio/mp3" |});
                 StopTracks (length (streams (host s))) ]
     /\ uploads (effects (host s')) = S (uploads (effects (host s)))
     /\ releases (effects (host s')) = S (releases (effects (host s)))
     /\ isRecording (vars s') = false
     /\ streams (host s') !! length (streams (host s)) = Some false)
  /\ stopRecording s = (Ret tt, s)
  /\ (forall s2, isRecording (vars s2) = true -> startRecording s2 = (Ret tt, s2)).
Proof.
  intros Hidle Hdis Hmd. split; [|split].
  - set (p := promises (host s)). set (r := length (recorders (host s))).
    set (st := length (streams (host s))).
    cbn [app run]. rewrite (step_start_click s Hidle Hdis Hmd).
    match goal with |- context [step ?x (MicGranted p)] => set (s1 := x) end.
    rewrite (step_granted s1 p) by (subst s1; js; set_solver).
    match goal with |- context [run ?x (map _ before ++ _)] => set (s2 := x) end.
    assert (Hr2 : recorders (host s2) !! r
                  = Some {| stream := st; state := Recording |}).
    { subst s2 s1. js. apply list_lookup_middle. reflexivity. }
    change s2 with (on_vars (set_audioChunks []) s2).
    rewrite (run_dataavailable before s2 [] r st Recording _ Hr2) by discriminate.
    cbn [run].
    match goal with |- context [step ?x ClickVoice] => set (s3 := x) end.
    rewrite (step_stop_click s3 r st); [| reflexivity | exact Hdis | reflexivity | exact Hr2].
    match goal with |- context [run ?x (map _ during ++ _)] => set (s4 := x) end.
    assert (Hr4 : recorders (host s4) !! r
                  = Some {| stream := st; state := Stopping |}).
    { subst s4 s3 s2 s1. js. subst r.
      rewrite (alter_last _ (recorders (host s))).
      apply list_lookup_middle. reflexivity. }
    change s4 with (on_vars (set_audioChunks ([] ++ before)) s4).
    rewrite (run_dataavailable during s4 _ r st Stopping _ Hr4) by discriminate.
    cbn [run].
    match goal with |- context [step ?x (StopEvent r)] => set (s5 := x) end.
    rewrite (step_stop_event s5 r st Hr4).
    eexists. split; [reflexivity|].
    subst s5 s4 s3 s2 s1. js.
    assert (Heff : forall (l : list Effect) a b c d e,
              (((l ++ [a]) ++ [b]) ++ [c]) ++ [d; e] = l ++ [a; b; c; d; e]).
    { intros. now rewrite <- !app_assoc. }
    rewrite Heff. split; [reflexivity|].
    rewrite uploads_app, releases_app.
    split; [cbn; lia|]. split; [cbn; lia|]. split; [reflexivity|].
    apply list_lookup_insert_eq. rewrite length_app. cbn. subst st. lia.
  - unfold stopRecording, bind, gets. cbv beta. now rewrite Hidle.
  - intros s2 Hrec. unfold startRecording, bind, gets. cbv beta. now rewrite Hrec.
Qed.

Lemma start_then_stop_uploads_once_witness :
  (isRecording (vars example_page) = false
   /\ disabled (voiceButton (dom example_page)) = false
   /\ mediaDevices (host example_page) = true)
  /\ (exists s',
        run example_page [ClickVoice; MicGranted 0; ClickVoice; StopEvent 0]
          = Some s'
        /\ uploads (effects (host s')) = 1
        /\ releases (effects (host s')) = 1
        /\ isRecording (vars s') = false)
  /\ stopRecording example_page = (Ret tt, example_page).
Proof.
  split; [repeat split|].
  destruct (start_then_stop_uploads_once example_page [] [] eq_refl eq_refl eq_refl)
    as [(s' & Hrun & _ & Hup & Hrel & Hidle & _) [Hstop _]].
  split; [|exact Hstop].
  exists s'. repeat split; [exact Hrun | exact Hup | exact Hrel | exact Hidle].
Defined.

(** The effects of one recording on the example page, in order. *)
Example one_recording_effects :
  (fun s => effects (host s))
    <$> run example_page
          [ClickVoice; MicGranted 0; DataAvailable 0 []; ClickVoice; StopEvent 0]
  = Some [ GetUserMedia 0; RecorderStart 0; RecorderStop 0;
           Fetch 1 (voice_request {| parts := [[]]; mime := "audio/mp3" |});
           StopTracks 0 ].
Proof. vm_compute. reflexivity. Qed.

(** C1 as stated fails.  Two toggles with nothing in between: the
    microphone request of the first is still pending and [isRecording] is
    still false, so the second toggle takes the start branch again.  Two
    requests are pending and nothing is uploaded or released.  When both
    are granted, two recorders run on two live streams, still without an
    upload or a release, and no stop event is due. *)
Lemma toggle_twice_starts_twice :
  (exists s',
     run example_page [ClickVoice; ClickVoice] = Some s'
     /\ effects (host s') = [GetUserMedia 0; GetUserMedia 1]
     /\ isRecording (vars s') = false
     /\ uploads (effects (host s')) = 0
     /\ releases (effects (host s')) = 0)
  /\ (exists s',
        run example_page [ClickVoice; ClickVoice; MicGranted 0; MicGranted 1]
          = Some s'
        /\ effects (host s') =
             [GetUserMedia 0; GetUserMedia 1; RecorderStart 0; RecorderStart 1]
        /\ uploads (effects (host s')) = 0
        /\ releases (effects (host s')) = 0
        /\ isRecording (vars s') = true
        /\ recorders (host s') =
             [ {| stream := 0; state := Recording |};
               {| stream := 1; state := Recording |} ]
        /\ streams (host s') = [true; true]
        /\ step s' (StopEvent 0) = None
        /\ step s' (StopEvent 1) = None).
Proof.
  split; eexists; (split; [vm_compute; reflexivity|]);
    repeat split; vm_compute; reflexivity.
Qed.

(** After the double start the first stream is never released: a third
    toggle stops the second recorder only. *)
Example double_start_keeps_a_stream :
  (fun s => (streams (host s), List.filter is_release (effects (host s))))
    <$> run example_page
          [ClickVoice; ClickVoice; MicGranted 0; MicGranted 1; ClickVoice;
           StopEvent 1]
  = Some ([true; false], [StopTracks 1]).
Proof. vm_compute. reflexivity. Qed.

(** A denied request leaves the recorder idle: the user is alerted, and
    the next toggle starts again. *)
Example denied_then_toggle :
  (fun s => (isRecording (vars s), effects (host s)))
    <$> run example_page [ClickVoice; MicDenied 0; ClickVoice]
  = Some (false,
          [ GetUserMedia 0;
            ConsoleError "Error accessing microphone:" Rejected;
            Alert "Could not access microphone. Please check permissions.";
            GetUserMedia 1 ]).
Proof. vm_compute. reflexivity. Qed.

(** * Beyond the claims *)

(** ** Sending a message *)

(** X1. With text left after trimming, [sendMessage] renders the trimmed
    text as a user message, clears the input field and sends exactly one
    request: a POST to /api/chat carrying the trimmed text, the fixed user
    id and [include_voice] false.  The task panel is untouched.  The Enter
    key without Shift does the same as the send button. *)
Theorem send_renders_and_posts (s : State) :
  Js.trim (userInput (dom s)) <> "" ->
  exists s',
    step s ClickSend = Some s'
    /\ step s (Keydown "Enter" false) = Some s'
    /\ chatMessages (dom s') =
         chatMessages (dom s)
           ++ [ {| className := "message user"; avatar := "👤";
                   textContent := Js.trim (userInput (dom s)) |} ]
    /\ userInput (dom s') = ""
    /\ effects (host s') =
         effects (host s)
           ++ [ Fetch (promises (host s))
                  {| url := "/api/chat"; method := "POST";
                     body := ChatJson (Js.trim (userInput (dom s)))
                               "default_user" false |} ]
    /\ fetching (host s') =
         <[promises (host s) := InFetchChatResponse]> (fetching (host s))
    /\ tasksList (dom s') = tasksList (dom s).
Proof.
  intros Hne.
  assert (Hsend : exists s', sendMessage s = (Ret tt, s')
            /\ chatMessages (dom s') =
                 chatMessages (dom s)
                   ++ [message_div user (Some (Js.trim (userInput (dom s))))]
            /\ userInput (dom s') = ""
            /\ effects (host s') =
                 effects (host s)
                   ++ [Fetch (promises (host s))
                         (chat_request (Js.trim (userInput (dom s))))]
            /\ fetching (host s') =
                 <[promises (host s) := InFetchChatResponse]> (fetching (host s))
            /\ tasksList (dom s') = tasksList (dom s)).
  { unfold sendMessage, bind, gets.
    destruct (String.eqb_spec (Js.trim (userInput (dom s))) "") as [E|_];
      [contradiction|].
    eexists. split; [reflexivity|]. repeat split; reflexivity. }
  destruct Hsend as (s' & Hrun & Hrest). exists s'. split; [|split].
  - cbn [step]. unfold run_handler. now rewrite Hrun.
  - cbn [step]. unfold run_handler, on_keydown.
    cbn [String.eqb Ascii.eqb Bool.eqb andb negb when]. now rewrite Hrun.
  - exact Hrest.
Qed.

Lemma send_renders_and_posts_witness :
  Js.trim (userInput (dom (type_text "  hi " example_page))) <> ""
  /\ exists s',
       step (type_text "  hi " example_page) ClickSend = Some s'
       /\ chatMessages (dom s') =
            [ {| className := "message user"; avatar := "👤";
                 textContent := "hi" |} ]
       /\ userInput (dom s') = ""
       /\ effects (host s') =
            [ Fetch 0 {| url := "/api/chat"; method := "POST";
                         body := ChatJson "hi" "default_user" false |} ].
Proof.
  assert (H : Js.trim (userInput (dom (type_text "  hi " example_page))) <> "")
    by discriminate.
  split; [exact H|].
  destruct (send_renders_and_posts _ H)
    as (s' & Hstep & _ & Hchat & Hinput & Heff & _).
  exists s'. repeat split; assumption.
Defined.

(** X2. A key other than Enter, or Enter with Shift held, does nothing:
    the state after the keydown listener is the state before. *)
Theorem keydown_other_keys (s : State) (key : string) (shiftKey : bool) :
  key <> "Enter" \/ shiftKey = true ->
  step s (Keydown key shiftKey) = Some s.
Proof.
  intros H. cbn [step]. unfold run_handler, on_keydown.
  destruct H as [H | ->].
  - destruct (String.eqb_spec key "Enter") as [E|_]; [contradiction|].
    reflexivity.
  - rewrite andb_false_r. reflexivity.
Qed.

Lemma keydown_other_keys_witness :
  step (type_text "hi" example_page) (Keydown "Enter" true)
  = Some (type_text "hi" example_page).
Proof.
  apply (keydown_other_keys (type_text "hi" example_page) "Enter" true).
  right. reflexivity.
Defined.

(** ** Answers the script cannot use *)

Lemma fetchChatResponse_resume_thrown (o : Settled) (e : JsError) (s : State) :
  thrown o = Some e ->
  fetchChatResponse_resume o s =
    (Ret tt,
     on_dom (fun d => set_chatMessages
               (chatMessages d ++ [message_div assistant (Some chat_fallback)]) d)
       (on_host (fun h => set_effects (effects h ++ [ConsoleError "Error:" e]) h) s)).
Proof.
  destruct o as [|[] [|[]]]; cbn [thrown]; intros [= <-]; reflexivity.
Qed.

Lemma sendVoiceRecording_resume_thrown (o : Settled) (e : JsError) (s : State) :
  thrown o = Some e ->
  sendVoiceRecording_resume o s =
    (Ret tt,
     on_dom (fun d => set_chatMessages
               (chatMessages d ++ [message_div assistant (Some voice_fallback)]) d)
       (on_host (fun h => set_effects
                   (effects h ++ [ConsoleError "Error processing voice:" e]) h) s)).
Proof.
  destruct o as [|[] [|[]]]; cbn [thrown]; intros [= <-]; try reflexivity.
  unfold sendVoiceRecording_resume, try_catch, bind, await, check_ok, json,
    data_text, ret, gets.
  cbn [fst snd negb].
  destruct (length (chatMessages (dom s))); reflexivity.
Qed.

Lemma loadTasks_resume_thrown (o : Settled) (e : JsError) (s : State) :
  thrown o = Some e ->
  loadTasks_resume o s =
    (Ret tt,
     on_dom (set_tasksList [error_loading])
       (on_host (fun h => set_effects
                   (effects h ++ [ConsoleError "Error loading tasks:" e]) h) s)).
Proof.
  destruct o as [|[] [|[]]]; cbn [thrown]; intros [= <-]; reflexivity.
Qed.

(** X3. A chat answer with a success status whose body is not JSON, or is
    the JSON value null, is treated like a failed request: reading it
    throws inside the [try] ([e] is the SyntaxError of [response.json()],
    or the TypeError of reading [text] of null), the fixed fallback is the
    one message appended, the error is logged, no reload is sent and the
    task panel is untouched. *)
Theorem chat_unreadable_body (s : State) (p : nat) (payload : ResponseBody) :
  fetching (host s) !! p = Some InFetchChatResponse ->
  payload = NotJson \/ payload = JsonBody JNull ->
  exists s' e,
    step s (FetchSettled p (Response true payload)) = Some s'
    /\ e = match payload with NotJson => SyntaxError | JsonBody _ => TypeError end
    /\ chatMessages (dom s') =
         chatMessages (dom s)
           ++ [ {| className := "message assistant"; avatar := "🤖";
                   textContent :=
                     "Sorry, there was an error processing your request." |} ]
    /\ effects (host s') = effects (host s) ++ [ConsoleError "Error:" e]
    /\ fetching (host s') = delete p (fetching (host s))
    /\ tasksList (dom s') = tasksList (dom s).
Proof.
  intros Hp Hbody.
  assert (Hthrown : thrown (Response true payload)
            = Some (match payload with NotJson => SyntaxError
                                     | JsonBody _ => TypeError end))
    by (destruct Hbody as [-> | ->]; reflexivity).
  eexists. eexists. split.
  - rewrite (step_settled _ _ _ _ Hp). cbn [resume]. unfold run_handler.
    rewrite (fetchChatResponse_resume_thrown _ _ _ Hthrown). reflexivity.
  - repeat split; reflexivity.
Qed.

Lemma chat_unreadable_body_witness :
  exists s' e,
    step chat_pending (FetchSettled 0 (Response true NotJson)) = Some s'
    /\ e = SyntaxError
    /\ chatMessages (dom s') =
         chatMessages (dom chat_pending)
           ++ [ {| className := "message assistant"; avatar := "🤖";
                   textContent :=
                     "Sorry, there was an error processing your request." |} ]
    /\ effects (host s') = effects (host chat_pending) ++ [ConsoleError "Error:" e]
    /\ fetching (host s') = delete 0 (fetching (host chat_pending))
    /\ tasksList (dom s') = tasksList (dom chat_pending).
Proof.
  apply (chat_unreadable_body chat_pending 0 NotJson);
    [reflexivity | left; reflexivity].
Defined.

(** X4. A chat reply that reports extracted tasks while no filter button
    is marked active: the reply is rendered first, then the lookup of the
    active filter throws inside the [try], so the fallback message follows
    the reply, the TypeError is logged and no task query is sent. *)
Theorem chat_reply_without_marked_filter (s : State) (p : nat)
    (text : option string) (k : Z) (voice : option string)
    (tasks : option (list Task)) :
  fetching (host s) !! p = Some InFetchChatResponse ->
  List.find active (filterButtons (dom s)) = None ->
  (0 < k)%Z ->
  exists s',
    step s (FetchSettled p (Response true (JsonBody (JObject text (Some k) voice tasks))))
      = Some s'
    /\ chatMessages (dom s') =
         chatMessages (dom s)
           ++ [ {| className := "message assistant"; avatar := "🤖";
                   textContent := default "" text |};
                {| className := "message assistant"; avatar := "🤖";
                   textContent :=
                     "Sorry, there was an error processing your request." |} ]
    /\ effects (host s') = effects (host s) ++ [ConsoleError "Error:" TypeError]
    /\ fetching (host s') = delete p (fetching (host s))
    /\ tasksList (dom s') = tasksList (dom s).
Proof.
  intros Hp Hb Hk. eexists. split.
  - rewrite (step_settled _ _ _ _ Hp). cbn [resume]. unfold run_handler.
    rewrite fetchChatResponse_resume_ok. cbn [Js.gt0].
    destruct (Z.ltb_spec 0 k); [|lia]. js. cbn [filterButtons]. rewrite Hb.
    reflexivity.
  - js. unfold addMessageToUI, console_error. js.
    repeat split; try reflexivity. now rewrite <- app_assoc.
Qed.

Lemma chat_reply_without_marked_filter_witness :
  exists s',
    step unmarked_chat_pending
      (FetchSettled 0 (Response true (JsonBody (JObject (Some "Noted.") (Some 1%Z) None None))))
      = Some s'
    /\ chatMessages (dom s') =
         chatMessages (dom unmarked_chat_pending)
           ++ [ {| className := "message assistant"; avatar := "🤖";
                   textContent := default "" (Some "Noted.") |};
                {| className := "message assistant"; avatar := "🤖";
                   textContent :=
                     "Sorry, there was an error processing your request." |} ]
    /\ effects (host s') =
         effects (host unmarked_chat_pending) ++ [ConsoleError "Error:" TypeError]
    /\ fetching (host s') = delete 0 (fetching (host unmarked_chat_pending))
    /\ tasksList (dom s') = tasksList (dom unmarked_chat_pending).
Proof.
  apply (chat_reply_without_marked_filter unmarked_chat_pending 0 (Some "Noted.")
           1%Z None None); reflexivity.
Defined.

(** X5. An answer to a voice upload with a success status whose body is
    not JSON, or is the JSON value null, ends in the [catch] block as
    well: the voice fallback is the one message appended, every earlier
    message (the placeholder too) keeps its text, the error is logged and
    nothing is played or reloaded. *)
Theorem voice_unreadable_body (s : State) (p : nat) (payload : ResponseBody) :
  fetching (host s) !! p = Some InSendVoiceRecording ->
  payload = NotJson \/ payload = JsonBody JNull ->
  exists s' e,
    step s (FetchSettled p (Response true payload)) = Some s'
    /\ e = match payload with NotJson => SyntaxError | JsonBody _ => TypeError end
    /\ chatMessages (dom s') =
         chatMessages (dom s)
           ++ [ {| className := "message assistant"; avatar := "🤖";
                   textContent :=
                     "Sorry, there was an error processing your voice message." |} ]
    /\ effects (host s') =
         effects (host s) ++ [ConsoleError "Error processing voice:" e]
    /\ fetching (host s') = delete p (fetching (host s)).
Proof.
  intros Hp Hbody.
  assert (Hthrown : thrown (Response true payload)
            = Some (match payload with NotJson => SyntaxError
                                     | JsonBody _ => TypeError end))
    by (destruct Hbody as [-> | ->]; reflexivity).
  eexists. eexists. split.
  - rewrite (step_settled _ _ _ _ Hp). cbn [resume]. unfold run_handler.
    rewrite (sendVoiceRecording_resume_thrown _ _ _ Hthrown). reflexivity.
  - repeat split; reflexivity.
Qed.

Lemma voice_unreadable_body_witness :
  exists s' e,
    step voice_pending (FetchSettled 1 (Response true (JsonBody JNull))) = Some s'
    /\ e = TypeError
    /\ chatMessages (dom s') =
         chatMessages (dom voice_pending)
           ++ [ {| className := "message assistant"; avatar := "🤖";
                   textContent :=
                     "Sorry, there was an error processing your voice message." |} ]
    /\ effects (host s') =
         effects (host voice_pending) ++ [ConsoleError "Error processing voice:" e]
    /\ fetching (host s') = delete 1 (fetching (host voice_pending)).
Proof.
  apply (voice_unreadable_body voice_pending 1 (JsonBody JNull));
    [reflexivity | right; reflexivity].
Defined.

(** ** The task panel *)

(** X6. A successful task query whose payload holds at least one task
    replaces whatever the panel showed by one card per task, in the order
    of the payload: the card of task [t] carries its id, description,
    creation date and status.  No paragraph is left, the chat and the
    effects are untouched. *)
Theorem tasks_render_cards (s : State) (p : nat) (text : option string)
    (n : option Z) (voice : option string) (ts : list Task) :
  fetching (host s) !! p = Some InLoadTasks ->
  ts <> [] ->
  exists s',
    step s (FetchSettled p (Response true (JsonBody (JObject text n voice (Some ts)))))
      = Some s'
    /\ length (tasksList (dom s')) = length ts
    /\ (forall i t,
          ts !! i = Some t ->
          tasksList (dom s') !! i =
            Some (Card {| item_class := "task-item " +:+ status t;
                          data_id := task_id t;
                          item_description := description t;
                          meta_date := toLocaleString (created_at t);
                          meta_status := status t;
                          actions := actions (task_card t) |}))
    /\ List.filter is_card (tasksList (dom s')) = tasksList (dom s')
    /\ chatMessages (dom s') = chatMessages (dom s)
    /\ effects (host s') = effects (host s).
Proof.
  intros Hp Hne. eexists. split.
  - rewrite (step_settled _ _ _ _ Hp). cbn [resume]. unfold run_handler.
    rewrite loadTasks_resume_ok. reflexivity.
  - match goal with |- context [tasksList ?d] => set (panel := tasksList d) end.
    assert (Hpanel : panel = (fun t => Card (task_card t)) <$> ts)
      by (destruct ts; [contradiction | reflexivity]).
    rewrite Hpanel. split; [apply length_fmap|]. split.
    { intros i t Hi. rewrite list_lookup_fmap, Hi. reflexivity. }
    split; [|split; reflexivity].
    clear. induction ts as [|x l IH]; [reflexivity|]. cbn. now rewrite IH.
Qed.

Lemma tasks_render_cards_witness :
  exists s',
    step filter_pending
      (FetchSettled 1 (Response true (JsonBody (JObject None None None (Some [task2])))))
      = Some s'
    /\ length (tasksList (dom s')) = 1
    /\ tasksList (dom s') !! 0 =
         Some (Card {| item_class := "task-item completed"; data_id := "2";
                       item_description := "file the report";
                       meta_date := toLocaleString "2024-05-02T10:30:00";
                       meta_status := "completed";
                       actions := [ {| label := "Reopen"; on_click_id := "2";
                                       on_click_status := "pending" |} ] |}).
Proof.
  assert (Hne : [task2] <> []) by discriminate.
  destruct (tasks_render_cards filter_pending 1 None None None [task2] eq_refl Hne)
    as (s' & Hstep & Hlen & Hcards & _).
  exists s'. split; [exact Hstep|]. split; [exact Hlen|].
  exact (Hcards 0 task2 eq_refl).
Defined.

(** X7. Any answer to a task query that the script cannot use (a rejected
    promise, a status that is not a success, a body that is not JSON, the
    JSON value null) replaces the panel by the single paragraph Error
    loading tasks, whatever was shown, and logs the error [e]; the chat is
    untouched and no request is sent. *)
Theorem tasks_error_panel (s : State) (p : nat) (o : Settled) (e : JsError) :
  fetching (host s) !! p = Some InLoadTasks ->
  thrown o = Some e ->
  exists s',
    step s (FetchSettled p o) = Some s'
    /\ tasksList (dom s') = [Para "no-tasks" "Error loading tasks"]
    /\ effects (host s') =
         effects (host s) ++ [ConsoleError "Error loading tasks:" e]
    /\ fetching (host s') = delete p (fetching (host s))
    /\ chatMessages (dom s') = chatMessages (dom s).
Proof.
  intros Hp Hthrown. eexists. split.
  - rewrite (step_settled _ _ _ _ Hp). cbn [resume]. unfold run_handler.
    rewrite (loadTasks_resume_thrown _ _ _ Hthrown). reflexivity.
  - repeat split; reflexivity.
Qed.

Lemma tasks_error_panel_witness :
  exists s',
    step filter_pending (FetchSettled 1 (Response false NotJson)) = Some s'
    /\ tasksList (dom s') = [Para "no-tasks" "Error loading tasks"]
    /\ effects (host s') =
         effects (host filter_pending)
           ++ [ConsoleError "Error loading tasks:"
                 (Error "Network response was not ok")]
    /\ fetching (host s') = delete 1 (fetching (host filter_pending))
    /\ chatMessages (dom s') = chatMessages (dom filter_pending).
Proof.
  apply (tasks_error_panel filter_pending 1 (Response false NotJson)); reflexivity.
Defined.

(** X8. The button of a rendered card.  For the card of task [t] at
    position [i] of the panel: if [t] is pending, its one button is
    Complete and a click sends exactly one request, PUT /api/tasks/<id>
    with status completed; if [t] is completed, the button is Reopen and
    the click sends status pending; the page itself is not changed by the
    click.  A card has no second button, and a task with any other status
    has no button at all. *)
Theorem card_button_sends_update (s : State) (i : nat) (t : Task) :
  tasksList (dom s) !! i = Some (Card (task_card t)) ->
  (forall new_status,
     (status t = "pending" /\ new_status = "completed")
     \/ (status t = "completed" /\ new_status = "pending") ->
     exists s',
       step s (ClickAction i 0) = Some s'
       /\ dom s' = dom s
       /\ effects (host s') =
            effects (host s)
              ++ [ Fetch (promises (host s))
                     {| url := "/api/tasks/" +:+ task_id t; method := "PUT";
                        body := StatusJson new_status |} ]
       /\ fetching (host s') =
            <[promises (host s) := InUpdateTaskStatus]> (fetching (host s)))
  /\ (forall b, 0 < b -> step s (ClickAction i b) = None)
  /\ (status t <> "pending" -> status t <> "completed" ->
      forall b, step s (ClickAction i b) = None).
Proof.
  intros Hcard.
  assert (Hact : forall b, action_at s i b = actions (task_card t) !! b).
  { intros b. unfold action_at. now rewrite Hcard. }
  split; [|split].
  - intros new_status Hst. eexists. split.
    + cbn [step]. rewrite Hact. cbn [task_card actions].
      destruct Hst as [[-> ->] | [-> ->]]; reflexivity.
    + repeat split; reflexivity.
  - intros b Hb. cbn [step]. rewrite Hact. cbn [task_card actions].
    destruct b as [|b]; [lia|].
    destruct (String.eqb (status t) "pending");
      [reflexivity|destruct (String.eqb (status t) "completed"); reflexivity].
  - intros Hp Hc b. cbn [step]. rewrite Hact. cbn [task_card actions].
    destruct (String.eqb_spec (status t) "pending") as [E|_]; [contradiction|].
    destruct (String.eqb_spec (status t) "completed") as [E|_]; [contradiction|].
    reflexivity.
Qed.

Lemma card_button_sends_update_witness :
  tasksList (dom tasks_shown) !! 1 = Some (Card (task_card task2))
  /\ exists s',
       step tasks_shown (ClickAction 1 0) = Some s'
       /\ dom s' = dom tasks_shown
       /\ effects (host s') =
            effects (host tasks_shown)
              ++ [ Fetch 1 {| url := "/api/tasks/2"; method := "PUT";
                              body := StatusJson "pending" |} ].
Proof.
  assert (H : tasksList (dom tasks_shown) !! 1 = Some (Card (task_card task2)))
    by reflexivity.
  split; [exact H|].
  destruct (card_button_sends_update tasks_shown 1 task2 H) as (Hclick & _).
  destruct (Hclick "pending" (or_intror (conj eq_refl eq_refl)))
    as (s' & Hstep & Hdom & Heff & _).
  exists s'. repeat split; assumption.
Defined.

(** X9. A successful update while no filter button is marked active: the
    lookup of the active filter throws inside the [try]; the TypeError is
    logged, no task query is sent and the page stays as it is. *)
Theorem update_without_marked_filter (s : State) (p : nat) (payload : ResponseBody) :
  fetching (host s) !! p = Some InUpdateTaskStatus ->
  List.find active (filterButtons (dom s)) = None ->
  exists s',
    step s (FetchSettled p (Response true payload)) = Some s'
    /\ dom s' = dom s
    /\ effects (host s') =
         effects (host s) ++ [ConsoleError "Error updating task:" TypeError]
    /\ fetching (host s') = delete p (fetching (host s)).
Proof.
  intros Hp Hb. eexists. split.
  - rewrite (step_settled _ _ _ _ Hp). cbn [resume]. unfold run_handler.
    rewrite updateTaskStatus_resume_ok. js. cbn [filterButtons]. rewrite Hb.
    reflexivity.
  - repeat split; reflexivity.
Qed.

Lemma update_without_marked_filter_witness :
  exists s',
    step unmarked_update_pending (FetchSettled 1 (Response true NotJson)) = Some s'
    /\ dom s' = dom unmarked_update_pending
    /\ effects (host s') =
         effects (host unmarked_update_pending)
           ++ [ConsoleError "Error updating task:" TypeError]
    /\ fetching (host s') = delete 1 (fetching (host unmarked_update_pending)).
Proof.
  apply (update_without_marked_filter unmarked_update_pending 1 NotJson);
    reflexivity.
Defined.

(** ** Filter buttons *)

Lemma unmark_after_click (l : list FilterButton) (i : nat) :
  map (set_active false) (alter (set_active true) i (map (set_active false) l))
  = map (set_active false) l.
Proof.
  assert (Hidem : forall l' : list FilterButton,
            map (set_active false) (map (set_active false) l')
            = map (set_active false) l').
  { intros l'. induction l' as [|y l' IH']; [reflexivity|].
    simpl. f_equal. exact IH'. }
  revert i. induction l as [|x l IH]; intros [|i]; try reflexivity.
  - simpl. f_equal. apply Hidem.
  - simpl. f_equal. apply IH.
Qed.

(** X10. Only the last click counts for the marks, and every click
    reloads.  After a click on button [i] and then on button [j] the marks
    are the same as after a click on [j] alone, and the two clicks have
    sent two task queries, one for each button's filter, in that order;
    this holds for [i = j] too: a click on the button that is already
    active sends the query again. *)
Theorem filter_last_click_wins (s : State) (i j : nat) (bi bj : FilterButton) :
  filterButtons (dom s) !! i = Some bi ->
  filterButtons (dom s) !! j = Some bj ->
  exists s1 s2 s3,
    step s (ClickFilter i) = Some s1
    /\ step s1 (ClickFilter j) = Some s2
    /\ step s (ClickFilter j) = Some s3
    /\ filterButtons (dom s2) = filterButtons (dom s3)
    /\ List.filter active (filterButtons (dom s2)) = [set_active true bj]
    /\ effects (host s2) =
         effects (host s)
           ++ [ Fetch (promises (host s)) (tasks_request (dataset_filter bi));
                Fetch (S (promises (host s))) (tasks_request (dataset_filter bj)) ].
Proof.
  intros Hi Hj.
  assert (Hj1 : alter (set_active true) i
                  (map (set_active false) (filterButtons (dom s))) !! j
                = Some (if decide (i = j) then set_active true bi
                        else set_active false bj)).
  { destruct (decide (i = j)) as [->|Hne].
    - now apply clicked_lookup.
    - rewrite list_lookup_alter_ne by exact Hne.
      change (map ?f ?l) with (f <$> l). now rewrite list_lookup_fmap, Hj. }
  assert (Hfilter : dataset_filter (if decide (i = j) then set_active true bi
                                    else set_active false bj)
                    = dataset_filter bj).
  { destruct (decide (i = j)) as [->|_]; [|reflexivity].
    rewrite Hi in Hj. now injection Hj as ->. }
  pose (s1 := snd (loadTasks (dataset_filter bi)
                     (on_dom (fun d => set_filterButtons
                                (alter (set_active true) i
                                   (map (set_active false) (filterButtons (dom s)))) d)
                        s))).
  assert (Hb1 : filterButtons (dom s1)
                = alter (set_active true) i
                    (map (set_active false) (filterButtons (dom s))))
    by (unfold s1; now rewrite keeps_loadTasks).
  assert (Hj1' : filterButtons (dom s1) !! j
                 = Some (if decide (i = j) then set_active true bi
                         else set_active false bj))
    by (rewrite Hb1; exact Hj1).
  exists s1. eexists. eexists. split; [|split; [|split]].
  - cbn [step]. rewrite Hi. unfold run_handler.
    rewrite (on_filter_click_run _ _ _ Hi). reflexivity.
  - cbn [step]. rewrite Hj1'. unfold run_handler.
    rewrite (on_filter_click_run _ _ _ Hj1'). reflexivity.
  - cbn [step]. rewrite Hj. unfold run_handler.
    rewrite (on_filter_click_run _ _ _ Hj). reflexivity.
  - rewrite !keeps_loadTasks. js. cbn [filterButtons].
    rewrite Hb1, unmark_after_click, Hfilter.
    split; [reflexivity|]. split.
    + exact (marks_after_click _ _ _ Hj).
    + unfold s1, loadTasks, fetch, perform, bind, gets, modify. js.
      now rewrite <- app_assoc.
Qed.

Lemma filter_last_click_wins_witness :
  exists s1 s2 s3,
    step loaded_page (ClickFilter 1) = Some s1
    /\ step s1 (ClickFilter 2) = Some s2
    /\ step loaded_page (ClickFilter 2) = Some s3
    /\ filterButtons (dom s2) = filterButtons (dom s3)
    /\ List.filter active (filterButtons (dom s2))
       = [ {| dataset_filter := "completed"; active := true |} ]
    /\ effects (host s2) =
         effects (host loaded_page)
           ++ [ Fetch 1 (tasks_request "pending");
                Fetch 2 (tasks_request "completed") ].
Proof.
  apply (filter_last_click_wins loaded_page 1 2
           {| dataset_filter := "pending"; active := false |}
           {| dataset_filter := "completed"; active := false |}); reflexivity.
Defined.

(** ** Start-up *)

(** X11. [init] sends exactly one request, the task query without a
    status filter, whichever filter button the page marks as active; it
    leaves the chat, the panel, the marks and the script's variables as
    they are.  It disables the voice button, with a title that says so,
    exactly when the browser has no media devices. *)
Theorem init_loads_all_tasks (s : State) :
  effects (host (run_handler init s)) =
    effects (host s)
      ++ [ Fetch (promises (host s))
             {| url := "/api/tasks?user_id=default_user"; method := "GET";
                body := NoBody |} ]
  /\ fetching (host (run_handler init s)) =
       <[promises (host s) := InLoadTasks]> (fetching (host s))
  /\ chatMessages (dom (run_handler init s)) = chatMessages (dom s)
  /\ tasksList (dom (run_handler init s)) = tasksList (dom s)
  /\ filterButtons (dom (run_handler init s)) = filterButtons (dom s)
  /\ vars (run_handler init s) = vars s
  /\ disabled (voiceButton (dom (run_handler init s))) =
       (if mediaDevices (host s) then disabled (voiceButton (dom s)) else true)
  /\ title (voiceButton (dom (run_handler init s))) =
       (if mediaDevices (host s) then title (voiceButton (dom s))
        else "Voice input not supported in your browser").
Proof.
  unfold run_handler, init, bind, gets. cbv beta.
  destruct (mediaDevices (host s)); repeat split; reflexivity.
Qed.

(** ** The microphone *)

(** X12. A denied microphone request leaves the recorder idle: the page
    and the script's variables are unchanged, no recorder or stream
    exists that did not before, the error is logged and the user is
    alerted once.  The request is settled: it can be neither denied nor
    granted again. *)
Theorem mic_denied_stays_idle (s : State) (p : nat) :
  p ∈ asking (host s) ->
  exists s',
    step s (MicDenied p) = Some s'
    /\ dom s' = dom s
    /\ vars s' = vars s
    /\ effects (host s') =
         effects (host s)
           ++ [ ConsoleError "Error accessing microphone:" Rejected;
                Alert "Could not access microphone. Please check permissions." ]
    /\ recorders (host s') = recorders (host s)
    /\ streams (host s') = streams (host s)
    /\ asking (host s') = asking (host s) ∖ {[ p ]}
    /\ step s' (MicDenied p) = None
    /\ step s' (MicGranted p) = None.
Proof.
  intros Hp. eexists. split.
  - cbn [step]. rewrite bool_decide_eq_true_2 by exact Hp. reflexivity.
  - js. unfold run_handler, startRecording_catch, console_error, perform, bind,
      modify. js.
    repeat split; try reflexivity.
    + now rewrite <- app_assoc.
    + cbn [step]. js. rewrite bool_decide_eq_false_2; [reflexivity|].
      rewrite elem_of_difference, elem_of_singleton. tauto.
    + cbn [step]. js. rewrite bool_decide_eq_false_2; [reflexivity|].
      rewrite elem_of_difference, elem_of_singleton. tauto.
Qed.

Lemma mic_denied_stays_idle_witness :
  exists s',
    step mic_pending (MicDenied 0) = Some s'
    /\ dom s' = dom mic_pending
    /\ vars s' = vars mic_pending
    /\ effects (host s') =
         effects (host mic_pending)
           ++ [ ConsoleError "Error accessing microphone:" Rejected;
                Alert "Could not access microphone. Please check permissions." ]
    /\ recorders (host s') = recorders (host mic_pending)
    /\ streams (host s') = streams (host mic_pending)
    /\ asking (host s') = asking (host mic_pending) ∖ {[ 0 ]}
    /\ step s' (MicDenied 0) = None
    /\ step s' (MicGranted 0) = None.
Proof.
  apply (mic_denied_stays_idle mic_pending 0).
  apply (bool_decide_unpack _). vm_compute. exact I.
Defined.

(** X13. What a successful answer to a voice upload triggers besides the
    chat messages, on a page with an active filter button [b]: the
    returned audio is played, from a data URL of type audio/mp3 built
    from the base64 text, exactly when [voice_data] is a text that is not
    empty; after that the task list is reloaded under [b]'s filter
    exactly when [tasks_extracted] is above 0.  Nothing else is sent or
    played and the task panel is not touched. *)
Theorem voice_reply_plays_and_reloads (s : State) (p : nat) (text : option string)
    (n : option Z) (voice : option string) (tasks : option (list Task))
    (ms : list Message) (m : Message) (b : FilterButton) :
  fetching (host s) !! p = Some InSendVoiceRecording ->
  chatMessages (dom s) = ms ++ [m] ->
  List.find active (filterButtons (dom s)) = Some b ->
  exists s',
    step s (FetchSettled p (Response true (JsonBody (JObject text n voice tasks))))
      = Some s'
    /\ effects (host s') =
         effects (host s)
           ++ (match voice with
               | Some (String c v) => [Play ("data:audio/mp3;base64," +:+ String c v)]
               | _ => []
               end)
           ++ (match n with
               | Some k =>
                   if (0 <? k)%Z
                   then [Fetch (promises (host s)) (tasks_request (dataset_filter b))]
                   else []
               | None => []
               end)
    /\ tasksList (dom s') = tasksList (dom s).
Proof.
  intros Hp Hchat Hb. eexists. split.
  - rewrite (step_settled _ _ _ _ Hp). reflexivity.
  - cbn [resume]. unfold run_handler.
    unfold sendVoiceRecording_resume, try_catch, bind, await, check_ok, json,
      data_text, data_voice_data, data_tasks_extracted, ret, gets.
    cbn [fst snd negb]. js. cbn [chatMessages]. rewrite Hchat, length_app.
    cbn [length]. rewrite Nat.add_1_r. cbn [modify addMessageToUI].
    destruct voice as [[|c v]|]; cbn [Js.truthy String.eqb negb when];
      (destruct n as [k|]; cbn [Js.gt0 when];
       [destruct (0 <? k)%Z; cbn [when]|]);
      unfold activeFilter, bind, gets; js; cbn [filterButtons]; rewrite ?Hb;
      unfold playAudioResponse, loadTasks, fetch, perform, bind, gets, modify;
      js; cbn [filterButtons]; rewrite ?Hb; js;
      rewrite ?app_nil_r, <- ?app_assoc; split; reflexivity.
Qed.

Lemma voice_reply_plays_and_reloads_witness :
  exists s',
    step voice_pending
      (FetchSettled 1 (Response true
         (JsonBody (JObject (Some "call mum") (Some 1%Z) (Some "QUJD") None))))
      = Some s'
    /\ effects (host s') =
         effects (host voice_pending)
           ++ [Play "data:audio/mp3;base64,QUJD"]
           ++ [Fetch 2 (tasks_request "all")]
    /\ tasksList (dom s') = tasksList (dom voice_pending).
Proof.
  apply (voice_reply_plays_and_reloads voice_pending 1 (Some "call mum")
           (Some 1%Z) (Some "QUJD") None []
           (message_div user (Some processing_text))
           {| dataset_filter := "all"; active := true |}); reflexivity.
Defined.

(** X14. The stop event of a stopped recorder [r] that recorded from
    stream [st]: the chunks gathered so far are wrapped into one audio/mp3
    clip, the processing placeholder is appended to the chat, the clip is
    uploaded by exactly one POST to /api/voice with the fixed user id, and
    after that the stream [st] is released.  The recorder is inactive
    from then on: neither a second stop event nor further data can
    arrive from it, so a recording is uploaded at most once. *)
Theorem stop_event_uploads_once (s : State) (r st : nat) :
  recorders (host s) !! r = Some {| stream := st; state := Stopping |} ->
  exists s',
    step s (StopEvent r) = Some s'
    /\ chatMessages (dom s') =
         chatMessages (dom s)
           ++ [ {| className := "message user"; avatar := "👤";
                   textContent := "🎤 Processing voice message..." |} ]
    /\ effects (host s') =
         effects (host s)
           ++ [ Fetch (promises (host s))
                  {| url := "/api/voice"; method := "POST";
                     body := FormData {| parts := audioChunks (vars s);
                                         mime := "audio/mp3" |}
                               "default_user" |};
                StopTracks st ]
    /\ fetching (host s') =
         <[promises (host s) := InSendVoiceRecording]> (fetching (host s))
    /\ streams (host s') = <[st := false]> (streams (host s))
    /\ vars s' = vars s
    /\ recorders (host s') !! r = Some {| stream := st; state := Inactive |}
    /\ step s' (StopEvent r) = None
    /\ (forall data, step s' (DataAvailable r data) = None).
Proof.
  intros Hr.
  assert (Hr' : alter (fun x => {| stream := stream x; state := Inactive |}) r
                  (recorders (host s)) !! r
                = Some {| stream := st; state := Inactive |})
    by (rewrite list_lookup_alter_eq, Hr; reflexivity).
  eexists. split; [exact (step_stop_event s r st Hr)|].
  js. repeat split; try reflexivity.
  - exact Hr'.
  - cbn [step]. js. now rewrite Hr'.
  - intros data. cbn [step]. js. now rewrite Hr'.
Qed.

Lemma stop_event_uploads_once_witness :
  recorders (host stop_due) !! 0 = Some {| stream := 0; state := Stopping |}
  /\ exists s',
       step stop_due (StopEvent 0) = Some s'
       /\ effects (host s') =
            effects (host stop_due)
              ++ [ Fetch 1 {| url := "/api/voice"; method := "POST";
                              body := FormData {| parts := [[]];
                                                  mime := "audio/mp3" |}
                                        "default_user" |};
                   StopTracks 0 ]
       /\ streams (host s') = [false]
       /\ step s' (StopEvent 0) = None.
Proof.
  assert (H : recorders (host stop_due) !! 0
              = Some {| stream := 0; state := Stopping |}) by reflexivity.
  split; [exact H|].
  destruct (stop_event_uploads_once stop_due 0 0 H)
    as (s' & Hstep & _ & Heff & _ & Hstreams & _ & _ & Hagain & _).
  exists s'. repeat split; assumption.
Defined.

(** ** What every handler respects *)

Section Respects.

Variable R : State -> State -> Prop.
Hypothesis R_refl : forall s, R s s.
Hypothesis R_trans : forall s1 s2 s3, R s1 s2 -> R s2 s3 -> R s1 s3.

Lemma respects_ret {A} (a : A) : respects R (ret a).
Proof. intros s. apply R_refl. Qed.

Lemma respects_throw {A} (e : JsError) : respects R (@throw A e).
Proof. intros s. apply R_refl. Qed.

Lemma respects_gets {A} (f : State -> A) : respects R (gets f).
Proof. intros s. apply R_refl. Qed.

Lemma respects_bind {A B} (m : M A) (k : A -> M B) :
  respects R m -> (forall a, respects R (k a)) -> respects R (bind m k).
Proof.
  intros Hm Hk s. unfold bind. specialize (Hm s).
  destruct (m s) as [[a|e] s1]; cbn [snd] in *.
  - eapply R_trans; [exact Hm | apply Hk].
  - exact Hm.
Qed.

Lemma respects_try_catch {A} (m : M A) (h : JsError -> M A) :
  respects R m -> (forall e, respects R (h e)) -> respects R (try_catch m h).
Proof.
  intros Hm Hh s. unfold try_catch. specialize (Hm s).
  destruct (m s) as [[a|e] s1]; cbn [snd] in *.
  - exact Hm.
  - eapply R_trans; [exact Hm | apply Hh].
Qed.

Lemma respects_when (b : bool) (m : M unit) :
  respects R m -> respects R (when b m).
Proof. intros Hm. destruct b; [exact Hm | apply respects_ret]. Qed.

Lemma respects_forEach {A} (f : A -> M unit) (l : list A) :
  (forall a, respects R (f a)) -> respects R (forEach f l).
Proof.
  intros Hf. induction l as [|a l IH]; cbn [forEach].
  - apply respects_ret.
  - apply respects_bind; [apply Hf | intros _; exact IH].
Qed.

Lemma respects_run_handler (m : M unit) (s : State) :
  respects R m -> returns m -> R s (run_handler m s).
Proof.
  intros Hm Hret. unfold run_handler. specialize (Hm s).
  destruct (Hret s) as [a Ha]. destruct (m s) as [[[]|e] s1]; cbn [fst snd] in *.
  - exact Hm.
  - discriminate Ha.
Qed.

End Respects.

Lemma respects_modify (R : State -> State -> Prop) (g : State -> State) :
  (forall s, R s (g s)) -> respects R (modify g).
Proof. intros H s. apply H. Qed.

Lemma returns_ret {A} (a : A) : returns (ret a).
Proof. intros s. eexists. reflexivity. Qed.

Lemma returns_gets {A} (f : State -> A) : returns (gets f).
Proof. intros s. eexists. reflexivity. Qed.

Lemma returns_modify (g : State -> State) : returns (modify g).
Proof. intros s. eexists. reflexivity. Qed.

Lemma returns_bind {A B} (m : M A) (k : A -> M B) :
  returns m -> (forall a, returns (k a)) -> returns (bind m k).
Proof.
  intros Hm Hk s. unfold bind. destruct (Hm s) as [a Ha].
  destruct (m s) as [[a'|e] s1]; cbn [fst] in *; [apply Hk | discriminate].
Qed.

Lemma returns_try_catch {A} (m : M A) (h : JsError -> M A) :
  (forall e, returns (h e)) -> returns (try_catch m h).
Proof.
  intros Hh s. unfold try_catch.
  destruct (m s) as [[a|e] s1]; [eexists; reflexivity | apply Hh].
Qed.

Lemma returns_when (b : bool) (m : M unit) : returns m -> returns (when b m).
Proof. intros Hm. destruct b; [exact Hm | apply returns_ret]. Qed.

(** Opens every function of the script down to the monad's operations. *)
Ltac open_script :=
  unfold resume, on_keydown, on_filter_click, init, on_stop,
    toggleVoiceRecording, startRecording, stopRecording, startRecording_then,
    startRecording_catch, sendMessage, fetchChatResponse,
    fetchChatResponse_resume, updateTaskStatus_resume, updateTaskStatus,
    sendVoiceRecording, sendVoiceRecording_resume, loadTasks_resume, loadTasks,
    renderTasks, set_panel, append_card, activeFilter, addMessageToUI,
    console_error, playAudioResponse, getUserMedia, recorder_start,
    recorder_stop, new_MediaRecorder, set_recorder_state, set_button,
    on_dataavailable, fetch, perform, await, check_ok, json, data_text,
    data_tasks, data_tasks_extracted, data_voice_data.

(** Proves [respects R m] for an opened [m]; [side] proves [R s (g s)] for
    each [modify g]. *)
Ltac respects_with refl trans side :=
  repeat first
    [ apply (respects_ret _ refl) | apply (respects_throw _ refl)
    | apply (respects_gets _ refl)
    | apply (respects_bind _ trans) | apply (respects_try_catch _ trans)
    | apply (respects_when _ refl) | apply (respects_forEach _ refl trans)
    | apply respects_modify; intros ?; side
    | match goal with
      | |- respects _ (match ?x with _ => _ end) => destruct x
      | |- respects _ (if ?b then _ else _) => destruct b
      | |- forall _, _ => intros ?
      end ].

Ltac returns_tac :=
  repeat first
    [ apply returns_ret | apply returns_gets | apply returns_modify
    | apply returns_bind | apply returns_try_catch | apply returns_when
    | match goal with
      | |- returns (match ?x with _ => _ end) => destruct x
      | |- returns (if ?b then _ else _) => destruct b
      | |- forall _, _ => intros ?
      end ].

Lemma returns_sendMessage : returns sendMessage.
Proof. open_script. returns_tac. Qed.

Lemma returns_on_keydown (key : string) (shiftKey : bool) :
  returns (on_keydown key shiftKey).
Proof. unfold on_keydown. apply returns_when, returns_sendMessage. Qed.

Lemma returns_on_filter_click (i : nat) : returns (on_filter_click i).
Proof. open_script. returns_tac. Qed.

Lemma returns_updateTaskStatus (taskId new_status : string) :
  returns (updateTaskStatus taskId new_status).
Proof. open_script. returns_tac. Qed.

Lemma returns_resume (site : Awaiting) (o : Settled) : returns (resume site o).
Proof. destruct site; open_script; returns_tac. Qed.

Lemma returns_startRecording_catch (e : JsError) : returns (startRecording_catch e).
Proof. open_script. returns_tac. Qed.

Lemma returns_on_stop (st : nat) : returns (on_stop st).
Proof. open_script. returns_tac. Qed.

(** *** Effects *)

Lemma emitted_refl (P : Effect -> Prop) (s : State) : emitted P s s.
Proof. exists []. split; [now rewrite app_nil_r | constructor]. Qed.

Lemma emitted_trans (P : Effect -> Prop) (s1 s2 s3 : State) :
  emitted P s1 s2 -> emitted P s2 s3 -> emitted P s1 s3.
Proof.
  intros (n1 & H1 & F1) (n2 & H2 & F2). exists (n1 ++ n2). split.
  - now rewrite H2, H1, app_assoc.
  - now apply Forall_app.
Qed.

Lemma emitted_silent (P : Effect -> Prop) (s s' : State) :
  effects (host s') = effects (host s) -> emitted P s s'.
Proof. intros H. exists []. split; [now rewrite app_nil_r | constructor]. Qed.

Lemma emitted_Forall (P : Effect -> Prop) (s s' : State) :
  emitted P s s' -> Forall P (effects (host s)) -> Forall P (effects (host s')).
Proof. intros (new & -> & Hnew) H. now apply Forall_app. Qed.

Ltac emitted_side :=
  first
    [ exists []; split; [js; rewrite app_nil_r; reflexivity | constructor]
    | eexists; split; [reflexivity|];
      (constructor; [|constructor]);
      first [ exact I | unfold api_effect, script_request; eauto 6 ] ].

Ltac emits :=
  open_script;
  respects_with (emitted_refl api_effect) (emitted_trans api_effect) emitted_side.

Lemma emits_sendMessage : respects (emitted api_effect) sendMessage.
Proof.
  intros s. unfold sendMessage, bind, gets. cbv beta.
  destruct (String.eqb_spec (Js.trim (userInput (dom s))) "") as [E|Hne];
    [apply emitted_refl|].
  eexists. split; [reflexivity|]. constructor; [|constructor].
  left. eexists. split; [exact Hne | reflexivity].
Qed.

Lemma emits_on_keydown (key : string) (shiftKey : bool) :
  respects (emitted api_effect) (on_keydown key shiftKey).
Proof.
  unfold on_keydown.
  apply (respects_when _ (emitted_refl api_effect)), emits_sendMessage.
Qed.

Lemma emits_on_filter_click (i : nat) :
  respects (emitted api_effect) (on_filter_click i).
Proof. emits. Qed.

Lemma emits_updateTaskStatus (taskId new_status : string) :
  respects (emitted api_effect) (updateTaskStatus taskId new_status).
Proof. emits. Qed.

Lemma emits_resume (site : Awaiting) (o : Settled) :
  respects (emitted api_effect) (resume site o).
Proof. destruct site; emits. Qed.

Lemma emits_startRecording_catch (e : JsError) :
  respects (emitted api_effect) (startRecording_catch e).
Proof. emits. Qed.

Lemma emits_on_stop (st : nat) : respects (emitted api_effect) (on_stop st).
Proof. emits. Qed.

Lemma emits_on_dataavailable (data : Chunk) :
  respects (emitted api_effect) (on_dataavailable data).
Proof. emits. Qed.

Lemma emits_init : respects (emitted api_effect) init.
Proof. emits. Qed.

(** *** The recorder's view *)

Lemma same_recorder_refl (s : State) : same_recorder s s.
Proof. reflexivity. Qed.

Lemma same_recorder_trans (s1 s2 s3 : State) :
  same_recorder s1 s2 -> same_recorder s2 s3 -> same_recorder s1 s3.
Proof. unfold same_recorder. congruence. Qed.

Ltac keeps_recorder :=
  open_script;
  respects_with same_recorder_refl same_recorder_trans ltac:(reflexivity).

Lemma recorder_sendMessage : respects same_recorder sendMessage.
Proof. keeps_recorder. Qed.

Lemma recorder_on_keydown (key : string) (shiftKey : bool) :
  respects same_recorder (on_keydown key shiftKey).
Proof. keeps_recorder. Qed.

Lemma recorder_on_filter_click (i : nat) :
  respects same_recorder (on_filter_click i).
Proof. keeps_recorder. Qed.

Lemma recorder_updateTaskStatus (taskId new_status : string) :
  respects same_recorder (updateTaskStatus taskId new_status).
Proof. keeps_recorder. Qed.

Lemma recorder_resume (site : Awaiting) (o : Settled) :
  respects same_recorder (resume site o).
Proof. destruct site; keeps_recorder. Qed.

Lemma recorder_startRecording_catch (e : JsError) :
  respects same_recorder (startRecording_catch e).
Proof. keeps_recorder. Qed.

Lemma recorder_on_stop (st : nat) : respects same_recorder (on_stop st).
Proof. keeps_recorder. Qed.

Lemma recorder_on_dataavailable (data : Chunk) :
  respects same_recorder (on_dataavailable data).
Proof. keeps_recorder. Qed.

Lemma returns_on_dataavailable (data : Chunk) : returns (on_dataavailable data).
Proof. open_script. returns_tac. Qed.

Lemma same_recorder_sound (s s' : State) :
  same_recorder s s' -> recorder_sound s -> recorder_sound s'.
Proof.
  unfold same_recorder, recorder_view, recorder_sound.
  intros [= Hrec Hmr Hrs Hmd Hdis _]. now rewrite Hrec, Hmr, Hrs, Hmd, Hdis.
Qed.

Section PlainSteps.

Variable R : State -> State -> Prop.
Hypothesis R_refl : forall s, R s s.
Hypothesis R_trans : forall s1 s2 s3, R s1 s2 -> R s2 s3 -> R s1 s3.
Hypothesis R_typed : forall s value, R s (on_dom (set_userInput value) s).
Hypothesis R_settled : forall s p, R s (settled p s).
Hypothesis R_sendMessage : respects R sendMessage.
Hypothesis R_filter : forall i, respects R (on_filter_click i).
Hypothesis R_update : forall a b, respects R (updateTaskStatus a b).
Hypothesis R_resume : forall site o, respects R (resume site o).
Hypothesis R_data : forall data, respects R (on_dataavailable data).

(** A relation that these listeners respect holds across every plain
    step. *)
Lemma plain_step_respects (s s' : State) (e : Event) :
  step s e = Some s' -> plain_event e = true -> R s s'.
Proof.
  intros Hstep Hplain. destruct e; try discriminate Hplain; cbn [step] in Hstep.
  - injection Hstep as <-. apply R_typed.
  - injection Hstep as <-.
    apply respects_run_handler; [exact R_sendMessage | apply returns_sendMessage].
  - injection Hstep as <-. apply respects_run_handler.
    + unfold on_keydown. now apply respects_when.
    + apply returns_on_keydown.
  - destruct (filterButtons (dom s) !! i); [|discriminate].
    injection Hstep as <-.
    apply respects_run_handler; [apply R_filter | apply returns_on_filter_click].
  - destruct (action_at s card button); [|discriminate].
    injection Hstep as <-.
    apply respects_run_handler; [apply R_update | apply returns_updateTaskStatus].
  - destruct (fetching (host s) !! p); [|discriminate].
    injection Hstep as <-. eapply R_trans; [apply R_settled|].
    apply respects_run_handler; [apply R_resume | apply returns_resume].
  - destruct (recorders (host s) !! r) as [[st []]|]; try discriminate;
      injection Hstep as <-;
      (apply respects_run_handler; [apply R_data | apply returns_on_dataavailable]).
Qed.

End PlainSteps.

(** *** The recorder's invariants *)

Lemma api_script_effect (e : Effect) : api_effect e -> script_effect e.
Proof. destruct e; cbn; intros H; try exact H. contradiction. Qed.

Lemma emitted_weaken (s s' : State) :
  emitted api_effect s s' -> emitted script_effect s s'.
Proof.
  intros (new & Hnew & Hall). exists new. split; [exact Hnew|].
  eapply Forall_impl; [exact Hall | exact api_script_effect].
Qed.

Lemma same_recorder_known (s s' : State) :
  same_recorder s s' -> recorder_known s -> recorder_known s'.
Proof.
  unfold same_recorder, recorder_view, recorder_known.
  intros [= Hrec Hmr Hrs Hmd Hdis _]. now rewrite Hrec, Hmr, Hrs, Hmd, Hdis.
Qed.

Lemma plain_step_same_recorder (s s' : State) (e : Event) :
  step s e = Some s' -> plain_event e = true -> same_recorder s s'.
Proof.
  apply (plain_step_respects same_recorder same_recorder_refl same_recorder_trans);
    try reflexivity.
  - apply recorder_sendMessage.
  - apply recorder_on_filter_click.
  - apply recorder_updateTaskStatus.
  - apply recorder_resume.
  - apply recorder_on_dataavailable.
Qed.

Lemma plain_step_emits (s s' : State) (e : Event) :
  step s e = Some s' -> plain_event e = true -> emitted api_effect s s'.
Proof.
  apply (plain_step_respects (emitted api_effect) (emitted_refl _) (emitted_trans _)).
  - intros s0 value. now apply emitted_silent.
  - intros s0 p. now apply emitted_silent.
  - apply emits_sendMessage.
  - apply emits_on_filter_click.
  - apply emits_updateTaskStatus.
  - apply emits_resume.
  - apply emits_on_dataavailable.
Qed.

Lemma run_handler_same_recorder (m : M unit) (s : State) :
  respects same_recorder m -> returns m -> same_recorder s (run_handler m s).
Proof. intros Hm Hret. now apply (respects_run_handler same_recorder). Qed.

Lemma run_handler_emits (m : M unit) (s s0 : State) :
  respects (emitted api_effect) m -> returns m ->
  effects (host s0) = effects (host s) ->
  emitted api_effect s (run_handler m s0).
Proof.
  intros Hm Hret Hsame.
  apply (emitted_trans _ s s0); [now apply emitted_silent|].
  now apply (respects_run_handler (emitted api_effect)).
Qed.

(** [mediaRecorder.stop()] on a recorder that is not recording throws, and
    nobody catches it: the click changes nothing, the flag stays set. *)
Lemma step_stop_click_inactive (s : State) (r st : nat) (x : RecorderState) :
  isRecording (vars s) = true ->
  disabled (voiceButton (dom s)) = false ->
  mediaRecorder (vars s) = Some r ->
  recorders (host s) !! r = Some {| stream := st; state := x |} ->
  x <> Recording ->
  step s ClickVoice =
    Some (on_host (fun h =>
            set_effects (effects h ++ [Uncaught InvalidStateError]) h) s).
Proof.
  intros Hrec Hdis Hmr Hr Hx. cbn [step]. rewrite Hdis.
  unfold run_handler, toggleVoiceRecording, stopRecording, recorder_stop,
    bind, gets.
  cbv beta. rewrite !Hrec. cbv beta iota. cbn [negb]. rewrite Hmr, Hr.
  destruct x; [contradiction | reflexivity | reflexivity].
Qed.

(** The voice button, the microphone and the recorder's events keep the
    weaker invariant; the only exception left uncaught is the one of
    [stop()] on a recorder that is not recording. *)
Lemma voice_step_known (s s' : State) (e : Event) :
  step s e = Some s' -> plain_event e = false ->
  recorder_known s ->
  recorder_known s' /\ emitted script_effect s s'.
Proof.
  intros Hstep Hplain [Hrec Hdev].
  destruct e; try discriminate Hplain; clear Hplain.
  - (* the voice button *)
    destruct (disabled (voiceButton (dom s))) eqn:Hdis;
      [cbn [step] in Hstep; rewrite Hdis in Hstep; discriminate|].
    destruct (isRecording (vars s)) eqn:Hbusy.
    + destruct (Hrec eq_refl) as (r & [st x] & Hmr & Hr).
      assert (Hcase : x = Recording \/ x <> Recording)
        by (destruct x; [left; reflexivity | right; discriminate
                        | right; discriminate]).
      destruct Hcase as [->|Hx].
      * rewrite (step_stop_click s r st Hbusy Hdis Hmr Hr) in Hstep.
        injection Hstep as <-. split; [split|].
        -- intros [=].
        -- js. rewrite Hdis. exact Hdev.
        -- eexists. split; [reflexivity|]. constructor; [exact I|constructor].
      * rewrite (step_stop_click_inactive s r st x Hbusy Hdis Hmr Hr Hx) in Hstep.
        injection Hstep as <-. split; [split|].
        -- intros _. exists r, {| stream := st; state := x |}.
           split; [exact Hmr | exact Hr].
        -- js. rewrite Hdis. exact Hdev.
        -- eexists. split; [reflexivity|]. constructor; [reflexivity|constructor].
    + assert (Hmd : mediaDevices (host s) = true).
      { destruct (mediaDevices (host s)); [reflexivity|].
        specialize (Hdev eq_refl). congruence. }
      rewrite (step_start_click s Hbusy Hdis Hmd) in Hstep.
      injection Hstep as <-. split; [split|].
      * js. intros H. rewrite Hbusy in H. discriminate H.
      * js. rewrite Hdis. exact Hdev.
      * eexists. split; [reflexivity|]. constructor; [exact I|constructor].
  - (* granted *)
    destruct (bool_decide (p ∈ asking (host s))) eqn:Hp;
      [|cbn [step] in Hstep; rewrite Hp in Hstep; discriminate].
    apply bool_decide_eq_true_1 in Hp.
    rewrite (step_granted s p Hp) in Hstep. injection Hstep as <-.
    split; [split|].
    + intros _. exists (length (recorders (host s))).
      exists {| stream := length (streams (host s)); state := Recording |}.
      split; [reflexivity|]. js. apply list_lookup_middle. reflexivity.
    + exact Hdev.
    + eexists. split; [reflexivity|]. constructor; [exact I|constructor].
  - (* denied *)
    cbn [step] in Hstep.
    destruct (bool_decide (p ∈ asking (host s))); [|discriminate].
    injection Hstep as <-. split.
    + eapply same_recorder_known;
        [apply run_handler_same_recorder;
           [apply recorder_startRecording_catch | apply returns_startRecording_catch]|].
      split; [exact Hrec | exact Hdev].
    + apply emitted_weaken. apply run_handler_emits;
        [apply emits_startRecording_catch | apply returns_startRecording_catch|].
      reflexivity.
  - (* the stop event *)
    cbn [step] in Hstep.
    destruct (recorders (host s) !! r) as [[st []]|] eqn:Hr; try discriminate.
    injection Hstep as <-. split.
    + eapply same_recorder_known;
        [apply run_handler_same_recorder;
           [apply recorder_on_stop | apply returns_on_stop]|].
      split; [|exact Hdev].
      intros Hbusy. destruct (Hrec Hbusy) as (r0 & x0 & Hmr & Hr0).
      unfold set_recorder_state, modify. js.
      destruct (decide (r = r0)) as [<-|Hne].
      * eexists r, _. split; [exact Hmr|].
        rewrite list_lookup_alter_eq, Hr. reflexivity.
      * exists r0, x0. split; [exact Hmr|].
        now rewrite list_lookup_alter_ne.
    + apply emitted_weaken. apply run_handler_emits;
        [apply emits_on_stop | apply returns_on_stop|].
      reflexivity.
  - (* the tracks end by themselves *)
    cbn [step] in Hstep.
    destruct (recorders (host s) !! r) as [[st []]|] eqn:Hr; try discriminate.
    injection Hstep as <-. split; [split|].
    + intros Hbusy. destruct (Hrec Hbusy) as (r0 & x0 & Hmr & Hr0). js.
      destruct (decide (r = r0)) as [<-|Hne].
      * eexists r, _. split; [exact Hmr|].
        rewrite list_lookup_alter_eq, Hr. reflexivity.
      * exists r0, x0. split; [exact Hmr|].
        now rewrite list_lookup_alter_ne.
    + exact Hdev.
    + now apply emitted_silent.
Qed.

(** As long as no recorder stops by itself the stronger invariant is kept
    and no exception is left uncaught. *)
Lemma voice_step_sound (s s' : State) (e : Event) :
  step s e = Some s' -> plain_event e = false -> self_stop e = false ->
  recorder_sound s ->
  recorder_sound s' /\ emitted api_effect s s'.
Proof.
  intros Hstep Hplain Hself [Hrec Hdev].
  destruct e; try discriminate Hplain; try discriminate Hself; clear Hplain Hself.
  - (* the voice button *)
    destruct (disabled (voiceButton (dom s))) eqn:Hdis;
      [cbn [step] in Hstep; rewrite Hdis in Hstep; discriminate|].
    destruct (isRecording (vars s)) eqn:Hbusy.
    + destruct (Hrec eq_refl) as (r & st & Hmr & Hr).
      rewrite (step_stop_click s r st Hbusy Hdis Hmr Hr) in Hstep.
      injection Hstep as <-. split; [split|].
      * intros [=].
      * js. rewrite Hdis. exact Hdev.
      * eexists. split; [reflexivity|]. constructor; [exact I|constructor].
    + assert (Hmd : mediaDevices (host s) = true).
      { destruct (mediaDevices (host s)); [reflexivity|].
        specialize (Hdev eq_refl). congruence. }
      rewrite (step_start_click s Hbusy Hdis Hmd) in Hstep.
      injection Hstep as <-. split; [split|].
      * js. intros H. rewrite Hbusy in H. discriminate H.
      * js. rewrite Hdis. exact Hdev.
      * eexists. split; [reflexivity|]. constructor; [exact I|constructor].
  - (* granted *)
    destruct (bool_decide (p ∈ asking (host s))) eqn:Hp;
      [|cbn [step] in Hstep; rewrite Hp in Hstep; discriminate].
    apply bool_decide_eq_true_1 in Hp.
    rewrite (step_granted s p Hp) in Hstep. injection Hstep as <-.
    split; [split|].
    + intros _. exists (length (recorders (host s))), (length (streams (host s))).
      split; [reflexivity|]. js. apply list_lookup_middle. reflexivity.
    + exact Hdev.
    + eexists. split; [reflexivity|]. constructor; [exact I|constructor].
  - (* denied *)
    cbn [step] in Hstep.
    destruct (bool_decide (p ∈ asking (host s))); [|discriminate].
    injection Hstep as <-. split.
    + eapply same_recorder_sound;
        [apply run_handler_same_recorder;
           [apply recorder_startRecording_catch | apply returns_startRecording_catch]|].
      split; [exact Hrec | exact Hdev].
    + apply run_handler_emits;
        [apply emits_startRecording_catch | apply returns_startRecording_catch|].
      reflexivity.
  - (* the stop event *)
    cbn [step] in Hstep.
    destruct (recorders (host s) !! r) as [[st []]|] eqn:Hr; try discriminate.
    injection Hstep as <-. split.
    + eapply same_recorder_sound;
        [apply run_handler_same_recorder;
           [apply recorder_on_stop | apply returns_on_stop]|].
      split; [|exact Hdev].
      intros Hbusy. destruct (Hrec Hbusy) as (r0 & st0 & Hmr & Hr0).
      exists r0, st0. split; [exact Hmr|].
      unfold set_recorder_state, modify. js.
      rewrite list_lookup_alter_ne; [exact Hr0|].
      intros <-. rewrite Hr in Hr0. discriminate Hr0.
    + apply run_handler_emits; [apply emits_on_stop | apply returns_on_stop|].
      reflexivity.
Qed.

Lemma step_known (s s' : State) (e : Event) :
  step s e = Some s' -> recorder_known s ->
  recorder_known s' /\ emitted script_effect s s'.
Proof.
  intros Hstep Hknown. destruct (plain_event e) eqn:Hplain.
  - split.
    + eapply same_recorder_known; [|exact Hknown].
      eapply plain_step_same_recorder; eassumption.
    + apply emitted_weaken. eapply plain_step_emits; eassumption.
  - eapply voice_step_known; eassumption.
Qed.

Lemma step_sound (s s' : State) (e : Event) :
  step s e = Some s' -> self_stop e = false -> recorder_sound s ->
  recorder_sound s' /\ emitted api_effect s s'.
Proof.
  intros Hstep Hself Hsound. destruct (plain_event e) eqn:Hplain.
  - split.
    + eapply same_recorder_sound; [|exact Hsound].
      eapply plain_step_same_recorder; eassumption.
    + eapply plain_step_emits; eassumption.
  - eapply voice_step_sound; eassumption.
Qed.

Lemma run_known (es : list Event) (s s' : State) :
  run s es = Some s' -> recorder_known s ->
  recorder_known s' /\ emitted script_effect s s'.
Proof.
  revert s. induction es as [|e es IH]; intros s Hrun Hknown; cbn [run] in Hrun.
  - injection Hrun as <-. split; [exact Hknown | apply emitted_refl].
  - destruct (step s e) as [s1|] eqn:Hstep; [|discriminate].
    destruct (step_known _ _ _ Hstep Hknown) as [Hknown1 Hemit1].
    destruct (IH _ Hrun Hknown1) as [Hknown' Hemit'].
    split; [exact Hknown' | eapply emitted_trans; eassumption].
Qed.

Lemma run_sound (es : list Event) (s s' : State) :
  run s es = Some s' -> forallb (fun e => negb (self_stop e)) es = true ->
  recorder_sound s ->
  recorder_sound s' /\ emitted api_effect s s'.
Proof.
  revert s. induction es as [|e es IH]; intros s Hrun Hself Hsound;
    cbn [run] in Hrun.
  - injection Hrun as <-. split; [exact Hsound | apply emitted_refl].
  - destruct (step s e) as [s1|] eqn:Hstep; [|discriminate].
    cbn [forallb] in Hself. apply andb_true_iff in Hself as [He Hes].
    apply negb_true_iff in He.
    destruct (step_sound _ _ _ Hstep He Hsound) as [Hsound1 Hemit1].
    destruct (IH _ Hrun Hes Hsound1) as [Hsound' Hemit'].
    split; [exact Hsound' | eapply emitted_trans; eassumption].
Qed.

Lemma init_sound (d : Dom) (supported : bool) :
  recorder_sound (run_handler init (boot d supported))
  /\ recorder_known (run_handler init (boot d supported))
  /\ Forall api_effect (effects (host (run_handler init (boot d supported)))).
Proof.
  split; [split|split; [split|]].
  - destruct supported; intros [=].
  - destruct supported; [intros [=] | reflexivity].
  - destruct supported; intros [=].
  - destruct supported; [intros [=] | reflexivity].
  - destruct supported; (constructor; [|constructor]); right; left;
      exists "all"; reflexivity.
Qed.

Lemma loaded_run_known (d : Dom) (supported : bool) (es : list Event) (s' : State) :
  run (run_handler init (boot d supported)) es = Some s' ->
  recorder_known s' /\ Forall script_effect (effects (host s')).
Proof.
  intros Hrun. destruct (init_sound d supported) as (_ & Hknown & Heff).
  destruct (run_known _ _ _ Hrun Hknown) as [Hknown' Hemit].
  split; [exact Hknown'|].
  apply (emitted_Forall _ _ _ Hemit).
  eapply Forall_impl; [exact Heff | exact api_script_effect].
Qed.

Lemma loaded_run_sound (d : Dom) (supported : bool) (es : list Event) (s' : State) :
  run (run_handler init (boot d supported)) es = Some s' ->
  forallb (fun e => negb (self_stop e)) es = true ->
  recorder_sound s' /\ Forall api_effect (effects (host s')).
Proof.
  intros Hrun Hself. destruct (init_sound d supported) as (Hsound & _ & Heff).
  destruct (run_sound _ _ _ Hrun Hself Hsound) as [Hsound' Hemit].
  split; [exact Hsound' | exact (emitted_Forall _ _ _ Hemit Heff)].
Qed.

(** A recorder that stops by itself, on the example page: the stop listener
    uploads the clip and releases the stream, but [isRecording] stays set;
    the next click calls [stop()] on the inactive recorder, the exception
    is left uncaught, and the flag and the button stay as they were. *)
Example self_stop_then_click :
  (fun s => (isRecording (vars s), vb_text (voiceButton (dom s)),
             effects (host s)))
    <$> run (run_handler init (boot (dom example_page) true))
          [ClickVoice; MicGranted 1; TracksEnded 0; StopEvent 0; ClickVoice]
  = Some (true, "⏹️",
          [ Fetch 0 (tasks_request "all"); GetUserMedia 1; RecorderStart 0;
            Fetch 2 (voice_request {| parts := []; mime := "audio/mp3" |});
            StopTracks 0; Uncaught InvalidStateError ]).
Proof. vm_compute. reflexivity. Qed.

(** X15. The one exception a listener can leave uncaught.  From the start
    of the script on any page, with or without media devices, and after
    any sequence of events, every uncaught exception that was reported is
    the InvalidStateError of [mediaRecorder.stop()]; every request is
    awaited inside a [try] and the [catch] blocks do not throw.  In a run
    in which no recorder's tracks end by themselves no exception is left
    uncaught at all: [stop()] is then only reached while the recorder
    that the variable refers to is recording. *)
Theorem uncaught_only_after_self_stop (d : Dom) (supported : bool)
    (es : list Event) (s' : State) :
  run (run_handler init (boot d supported)) es = Some s' ->
  (forall e, Uncaught e ∈ effects (host s') -> e = InvalidStateError)
  /\ (forallb (fun ev => negb (self_stop ev)) es = true ->
      forall e, Uncaught e ∉ effects (host s')).
Proof.
  intros Hrun. split.
  - intros e Hin. destruct (loaded_run_known d supported es s' Hrun) as [_ Heff].
    rewrite Forall_forall in Heff. exact (Heff _ Hin).
  - intros Hself e Hin.
    destruct (loaded_run_sound d supported es s' Hrun Hself) as [_ Heff].
    rewrite Forall_forall in Heff. exact (Heff _ Hin).
Qed.

Lemma uncaught_only_after_self_stop_witness :
  exists s',
    run (run_handler init (boot (dom example_page) true))
      [ ClickVoice; MicGranted 1; ClickVoice; StopEvent 0;
        FetchSettled 2 (Response true NotJson); FetchSettled 0 NetworkError ]
      = Some s'
    /\ forall e, Uncaught e ∉ effects (host s').
Proof.
  eexists. split; [vm_compute; reflexivity|].
  apply (uncaught_only_after_self_stop (dom example_page) true
           [ ClickVoice; MicGranted 1; ClickVoice; StopEvent 0;
             FetchSettled 2 (Response true NotJson); FetchSettled 0 NetworkError ]).
  - vm_compute. reflexivity.
  - reflexivity.
Defined.

(** X16. The script sends only four kinds of request, whatever the events:
    a POST to /api/chat whose message is not empty, with the fixed user id
    and [include_voice] false; a GET of the task list for the fixed user,
    with a status parameter unless the filter is all; a PUT of a status to
    /api/tasks/<id>; a POST of an audio clip with the fixed user id to
    /api/voice. *)
Theorem only_script_requests (d : Dom) (supported : bool) (es : list Event)
    (s' : State) :
  run (run_handler init (boot d supported)) es = Some s' ->
  forall p r,
    Fetch p r ∈ effects (host s') ->
    (exists message,
        message <> ""
        /\ r = {| url := "/api/chat"; method := "POST";
                  body := ChatJson message "default_user" false |})
    \/ (exists flt,
          r = {| url := if String.eqb flt "all"
                        then "/api/tasks?user_id=default_user"
                        else "/api/tasks?user_id=default_user&status=" +:+ flt;
                 method := "GET"; body := NoBody |})
    \/ (exists taskId new_status,
          r = {| url := "/api/tasks/" +:+ taskId; method := "PUT";
                 body := StatusJson new_status |})
    \/ (exists audioBlob,
          r = {| url := "/api/voice"; method := "POST";
                 body := FormData audioBlob "default_user" |}).
Proof.
  intros Hrun p r Hin.
  destruct (loaded_run_known d supported es s' Hrun) as [_ Heff].
  rewrite Forall_forall in Heff. specialize (Heff _ Hin). cbn [script_effect] in Heff.
  destruct Heff as [(m & Hm & ->) | [(flt & ->) | [(a & b & ->) | (blob & ->)]]].
  - left. exists m. split; [exact Hm | reflexivity].
  - right. left. exists flt. unfold tasks_request.
    destruct (String.eqb flt "all"); reflexivity.
  - right. right. left. exists a, b. reflexivity.
  - right. right. right. exists blob. reflexivity.
Qed.

Lemma only_script_requests_witness :
  exists s',
    run (run_handler init (boot (dom example_page) true))
      [ClickFilter 1; Typed "hi"; ClickSend] = Some s'
    /\ Fetch 1 (tasks_request "pending") ∈ effects (host s')
    /\ exists flt,
         tasks_request "pending" =
           {| url := if String.eqb flt "all"
                     then "/api/tasks?user_id=default_user"
                     else "/api/tasks?user_id=default_user&status=" +:+ flt;
              method := "GET"; body := NoBody |}.
Proof.
  eexists. split; [vm_compute; reflexivity|].
  assert (Hin : Fetch 1 (tasks_request "pending")
                ∈ [ Fetch 0 (tasks_request "all");
                    Fetch 1 (tasks_request "pending");
                    Fetch 2 (chat_request "hi") ])
    by (apply list_elem_of_In; right; left; reflexivity).
  split; [exact Hin|].
  destruct (only_script_requests (dom example_page) true
              [ClickFilter 1; Typed "hi"; ClickSend] _ eq_refl
              1 (tasks_request "pending") Hin)
    as [(m & _ & H) | [H | [(a & b & H) | (blob & H)]]];
    [discriminate H | exact H | discriminate H | discriminate H].
Defined.



(** *** A browser without media devices *)

Lemma same_recorder_voice_off (s s' : State) :
  same_recorder s s' -> voice_off s -> voice_off s'.
Proof.
  unfold same_recorder, recorder_view, voice_off.
  intros [= Hrec _ Hrs _ Hdis Hask]. now rewrite Hrec, Hrs, Hdis, Hask.
Qed.

Lemma step_voice_off (s s' : State) (e : Event) :
  step s e = Some s' -> voice_off s -> voice_off s'.
Proof.
  intros Hstep Hoff. destruct (plain_event e) eqn:Hplain.
  - eapply same_recorder_voice_off; [|exact Hoff].
    revert Hstep Hplain.
    apply (plain_step_respects same_recorder same_recorder_refl
             same_recorder_trans); try reflexivity.
    + apply recorder_sendMessage.
    + apply recorder_on_filter_click.
    + apply recorder_updateTaskStatus.
    + apply recorder_resume.
    + apply recorder_on_dataavailable.
  - destruct Hoff as (Hdis & Hask & Hrs & _).
    destruct e; try discriminate Hplain; cbn [step] in Hstep.
    + rewrite Hdis in Hstep. discriminate Hstep.
    + rewrite Hask in Hstep. discriminate Hstep.
    + rewrite Hask in Hstep. discriminate Hstep.
    + rewrite Hrs in Hstep. discriminate Hstep.
    + rewrite Hrs in Hstep. discriminate Hstep.
Qed.

(** X18. In a browser without media devices [init] disables the voice
    button, and it stays disabled: in every state reached afterwards the
    button cannot be clicked, no microphone request is pending or can be
    granted, no recorder exists and [isRecording] is false. *)
Theorem voice_stays_off_when_unsupported (d : Dom) (es : list Event) (s' : State) :
  run (run_handler init (boot d false)) es = Some s' ->
  disabled (voiceButton (dom s')) = true
  /\ step s' ClickVoice = None
  /\ asking (host s') = ∅
  /\ (forall p, step s' (MicGranted p) = None)
  /\ recorders (host s') = []
  /\ isRecording (vars s') = false.
Proof.
  intros Hrun.
  assert (Hoff : voice_off s').
  { assert (H0 : voice_off (run_handler init (boot d false)))
      by (repeat split; reflexivity).
    revert Hrun H0. generalize (run_handler init (boot d false)).
    induction es as [|e es IH]; intros s Hrun Hoff; cbn [run] in Hrun.
    - now injection Hrun as <-.
    - destruct (step s e) as [s1|] eqn:Hstep; [|discriminate].
      eapply IH; [exact Hrun|]. eapply step_voice_off; eassumption. }
  destruct Hoff as (Hdis & Hask & Hrs & Hrec).
  repeat split; try assumption.
  - cbn [step]. now rewrite Hdis.
  - intros p. cbn [step]. now rewrite Hask.
Qed.

Lemma voice_stays_off_when_unsupported_witness :
  exists s',
    run unsupported_page [Typed "hi"; ClickSend; ClickFilter 1] = Some s'
    /\ disabled (voiceButton (dom s')) = true
    /\ step s' ClickVoice = None
    /\ recorders (host s') = [].
Proof.
  eexists. split; [vm_compute; reflexivity|].
  destruct (voice_stays_off_when_unsupported (dom example_page)
              [Typed "hi"; ClickSend; ClickFilter 1] _ eq_refl)
    as (Hdis & Hclick & _ & _ & Hrs & _).
  repeat split; assumption.
Defined.

(** *** The chat list *)

Lemma chat_extended_refl (s : State) : chat_extended s s.
Proof. exists []. now rewrite app_nil_r. Qed.

Lemma chat_extended_trans (s1 s2 s3 : State) :
  chat_extended s1 s2 -> chat_extended s2 s3 -> chat_extended s1 s3.
Proof.
  intros (n1 & H1) (n2 & H2). exists (n1 ++ n2). now rewrite H2, H1, app_assoc.
Qed.

Lemma chat_extended_same (s s' : State) :
  chatMessages (dom s') = chatMessages (dom s) -> chat_extended s s'.
Proof. intros H. exists []. now rewrite app_nil_r. Qed.

Ltac extends_chat :=
  open_script;
  respects_with chat_extended_refl chat_extended_trans
    ltac:(first [ apply chat_extended_same; reflexivity
                | eexists; reflexivity ]).

Lemma chat_sendMessage : respects chat_extended sendMessage.
Proof. extends_chat. Qed.

Lemma chat_on_filter_click (i : nat) : respects chat_extended (on_filter_click i).
Proof. extends_chat. Qed.

Lemma chat_updateTaskStatus (a b : string) :
  respects chat_extended (updateTaskStatus a b).
Proof. extends_chat. Qed.

Lemma chat_on_dataavailable (data : Chunk) :
  respects chat_extended (on_dataavailable data).
Proof. extends_chat. Qed.

Lemma chat_toggleVoiceRecording : respects chat_extended toggleVoiceRecording.
Proof. extends_chat. Qed.

Lemma chat_startRecording_then (st : nat) :
  respects chat_extended (startRecording_then st).
Proof. extends_chat. Qed.

Lemma chat_startRecording_catch (e : JsError) :
  respects chat_extended (startRecording_catch e).
Proof. extends_chat. Qed.

Lemma chat_on_stop (st : nat) : respects chat_extended (on_stop st).
Proof. extends_chat. Qed.

Lemma chat_resume (site : Awaiting) (o : Settled) :
  site <> InSendVoiceRecording -> respects chat_extended (resume site o).
Proof. intros Hsite. destruct site; [| | |contradiction]; extends_chat. Qed.

(** A listener's changes to the chat stay when it ends in an exception. *)
Lemma chat_run_handler (m : M unit) (s : State) :
  chatMessages (dom (run_handler m s)) = chatMessages (dom (snd (m s))).
Proof. unfold run_handler. destruct (m s) as [[[]|e] s1]; reflexivity. Qed.

Lemma run_handler_extends (m : M unit) (s s0 : State) :
  respects chat_extended m ->
  chatMessages (dom s0) = chatMessages (dom s) ->
  chat_extended s (run_handler m s0).
Proof.
  intros Hm Hsame. destruct (Hm s0) as [new Hnew]. exists new.
  now rewrite chat_run_handler, Hnew, Hsame.
Qed.

(** Every step but the answer to a voice upload only appends to the
    chat. *)
Lemma step_extends_chat (s s' : State) (e : Event) :
  step s e = Some s' ->
  (forall p o, e = FetchSettled p o ->
               fetching (host s) !! p <> Some InSendVoiceRecording) ->
  chat_extended s s'.
Proof.
  intros Hstep Hvoice. destruct e; cbn [step] in Hstep.
  - injection Hstep as <-. now apply chat_extended_same.
  - injection Hstep as <-. now apply run_handler_extends; [apply chat_sendMessage|].
  - injection Hstep as <-. apply run_handler_extends; [|reflexivity].
    unfold on_keydown. apply (respects_when _ chat_extended_refl), chat_sendMessage.
  - destruct (disabled (voiceButton (dom s))); [discriminate|].
    injection Hstep as <-.
    now apply run_handler_extends; [apply chat_toggleVoiceRecording|].
  - destruct (filterButtons (dom s) !! i); [|discriminate].
    injection Hstep as <-.
    now apply run_handler_extends; [apply chat_on_filter_click|].
  - destruct (action_at s card button); [|discriminate].
    injection Hstep as <-.
    now apply run_handler_extends; [apply chat_updateTaskStatus|].
  - destruct (fetching (host s) !! p) as [site|] eqn:Hp; [|discriminate].
    injection Hstep as <-. apply run_handler_extends; [|reflexivity].
    apply chat_resume. intros ->. exact (Hvoice p o eq_refl Hp).
  - destruct (bool_decide (p ∈ asking (host s))); [|discriminate].
    injection Hstep as <-. apply run_handler_extends; [|reflexivity].
    apply (respects_try_catch _ chat_extended_trans);
      [apply chat_startRecording_then | apply chat_startRecording_catch].
  - destruct (bool_decide (p ∈ asking (host s))); [|discriminate].
    injection Hstep as <-.
    now apply run_handler_extends; [apply chat_startRecording_catch|].
  - destruct (recorders (host s) !! r) as [[st []]|]; try discriminate;
      injection Hstep as <-;
      (now apply run_handler_extends; [apply chat_on_dataavailable|]).
  - destruct (recorders (host s) !! r) as [[st []]|]; try discriminate.
    injection Hstep as <-. now apply run_handler_extends; [apply chat_on_stop|].
  - destruct (recorders (host s) !! r) as [[st []]|]; try discriminate.
    injection Hstep as <-. now apply chat_extended_same.
Qed.

Lemma chat_extended_kept (s s' : State) : chat_extended s s' -> chat_kept s s'.
Proof.
  intros [new Hnew] i m Hi. exists m. rewrite Hnew.
  split; [now apply lookup_app_l_Some | split; reflexivity].
Qed.

Lemma chat_kept_trans (s1 s2 s3 : State) :
  chat_kept s1 s2 -> chat_kept s2 s3 -> chat_kept s1 s3.
Proof.
  intros H12 H23 i m Hi.
  destruct (H12 i m Hi) as (m2 & Hi2 & Hc2 & Ha2).
  destruct (H23 i m2 Hi2) as (m3 & Hi3 & Hc3 & Ha3).
  exists m3. split; [exact Hi3 | split; congruence].
Qed.

(** The answer to a voice upload appends to the chat and rewrites at most
    the text of the message that was last. *)
Lemma voice_resume_chat (o : Settled) (s : State) :
  exists sel new,
    chatMessages (dom (snd (sendVoiceRecording_resume o s))) = sel ++ new
    /\ (sel = chatMessages (dom s)
        \/ exists ms m t, chatMessages (dom s) = ms ++ [m]
                          /\ sel = ms ++ [set_text t m]).
Proof.
  destruct (thrown o) as [e|] eqn:Hthrown.
  - rewrite (sendVoiceRecording_resume_thrown o e s Hthrown).
    eexists. eexists. split; [reflexivity | left; reflexivity].
  - destruct o as [|[] [|[|text n voice tasks]]]; try discriminate Hthrown.
    destruct (chatMessages (dom s)) as [|m0 l] eqn:Hchat using rev_ind.
    + exists [], [message_div assistant (Some voice_fallback)].
      split; [|left; reflexivity].
      unfold sendVoiceRecording_resume, try_catch, bind, await, check_ok, json,
        ret, gets.
      cbn [fst snd negb]. rewrite Hchat. cbn [length].
      unfold console_error, perform, addMessageToUI, bind, modify. js.
      cbn [chatMessages]. now rewrite Hchat.
    + clear IHl.
      destruct (sendVoiceRecording_resume_ok s text n voice tasks l m0 Hchat)
        as (s' & rest & Hrun & Hmsgs & _).
      rewrite Hrun. cbn [snd]. rewrite Hmsgs.
      exists (l ++ [set_text (Js.or_else text not_transcribed) m0]),
        ([message_div assistant text] ++ rest).
      split; [now rewrite <- app_assoc|].
      right. exists l, m0, (Js.or_else text not_transcribed). split; reflexivity.
Qed.

Lemma step_chat_kept (s s' : State) (e : Event) :
  step s e = Some s' -> chat_kept s s'.
Proof.
  intros Hstep.
  assert (Hcases :
    (exists p o, e = FetchSettled p o
                 /\ fetching (host s) !! p = Some InSendVoiceRecording)
    \/ (forall p o, e = FetchSettled p o ->
                    fetching (host s) !! p <> Some InSendVoiceRecording)).
  { destruct e; try (right; intros ? ? [=]; fail).
    destruct (fetching (host s) !! p) as [[]|] eqn:Hp;
      try (right; intros p' o' [= <- <-]; rewrite Hp; discriminate).
    left. exists p, o. split; [reflexivity | exact Hp]. }
  destruct Hcases as [(p & o & -> & Hvoice) | Hvoice].
  - rewrite (step_settled _ _ _ _ Hvoice) in Hstep. injection Hstep as <-.
    cbn [resume]. intros i m Hi.
    destruct (voice_resume_chat o (settled p s)) as (sel & new & Hnew & Hsel).
    rewrite chat_run_handler, Hnew.
    destruct Hsel as [-> | (ms & m0 & t & Hchat & ->)].
    + exists m. split; [now apply lookup_app_l_Some | split; reflexivity].
    + change (chatMessages (dom (settled p s))) with (chatMessages (dom s)) in Hchat.
      rewrite Hchat in Hi.
      destruct (decide (i < length ms)) as [Hlt|Hge].
      * exists m. rewrite lookup_app_l in Hi by exact Hlt.
        split; [|split; reflexivity].
        apply lookup_app_l_Some. now rewrite lookup_app_l.
      * assert (Hlen : i = length ms).
        { apply lookup_lt_Some in Hi. rewrite length_app in Hi. cbn in Hi. lia. }
        subst i. rewrite list_lookup_middle in Hi by reflexivity.
        injection Hi as <-. exists (set_text t m0).
        split; [|split; reflexivity].
        apply lookup_app_l_Some. now apply list_lookup_middle.
  - apply chat_extended_kept. exact (step_extends_chat s s' e Hstep Hvoice).
Qed.

Lemma run_chat_kept (es : list Event) (s s' : State) :
  run s es = Some s' -> chat_kept s s'.
Proof.
  revert s. induction es as [|e es IH]; intros s Hrun; cbn [run] in Hrun.
  - injection Hrun as <-. apply chat_extended_kept, chat_extended_refl.
  - destruct (step s e) as [s1|] eqn:Hstep; [|discriminate].
    eapply chat_kept_trans; [eapply step_chat_kept; exact Hstep | now apply IH].
Qed.

(** X19. The chat is never shortened or reordered.  From any state and
    through any sequence of events, a message that is rendered stays at
    its position with its class (its sender) and its avatar.  Its text is
    kept as well by every step except the answer to a voice upload: any
    other step only appends to the chat list. *)
Theorem chat_never_loses_messages (s s' : State) (es : list Event) :
  run s es = Some s' ->
  (forall i m,
     chatMessages (dom s) !! i = Some m ->
     exists m',
       chatMessages (dom s') !! i = Some m'
       /\ className m' = className m /\ avatar m' = avatar m)
  /\ length (chatMessages (dom s)) <= length (chatMessages (dom s'))
  /\ (forall e s1,
        step s' e = Some s1 ->
        (forall p o, e = FetchSettled p o ->
                     fetching (host s') !! p <> Some InSendVoiceRecording) ->
        exists new, chatMessages (dom s1) = chatMessages (dom s') ++ new).
Proof.
  intros Hrun. pose proof (run_chat_kept es s s' Hrun) as Hkept.
  split; [exact Hkept|]. split.
  - destruct (chatMessages (dom s)) as [|m0 l] eqn:Hchat using rev_ind;
      [cbn; lia|].
    clear IHl.
    destruct (Hkept (length l) m0) as (m' & Hm' & _).
    { rewrite Hchat. now apply list_lookup_middle. }
    apply lookup_lt_Some in Hm'. rewrite length_app. cbn. lia.
  - intros e s1 Hstep Hvoice. exact (step_extends_chat s' s1 e Hstep Hvoice).
Qed.

Lemma chat_never_loses_messages_witness :
  exists s',
    run voice_pending
      [ Typed "hi"; ClickSend;
        FetchSettled 1 (reply (Some "remind me at noon") None None);
        FetchSettled 2 NetworkError ] = Some s'
    /\ length (chatMessages (dom voice_pending)) <= length (chatMessages (dom s'))
    /\ exists m',
         chatMessages (dom s') !! 0 = Some m'
         /\ className m' = "message user" /\ avatar m' = "👤".
Proof.
  eexists. split; [vm_compute; reflexivity|].
  match goal with
  | |- context [chatMessages (dom ?x) !! 0] =>
      assert (Hrun : run voice_pending
                [ Typed "hi"; ClickSend;
                  FetchSettled 1 (reply (Some "remind me at noon") None None);
                  FetchSettled 2 NetworkError ] = Some x)
        by (vm_compute; reflexivity)
  end.
  destruct (chat_never_loses_messages voice_pending _ _ Hrun)
    as (Hkept & Hlen & _).
  split; [exact Hlen|].
  apply (Hkept 0 (message_div user (Some processing_text))).
  vm_compute. reflexivity.
Defined.

(** ** C6: the panel after an update *)

Lemma same_panel_refl (s : State) : same_panel s s.
Proof. reflexivity. Qed.

Lemma same_panel_trans (s1 s2 s3 : State) :
  same_panel s1 s2 -> same_panel s2 s3 -> same_panel s1 s3.
Proof. unfold same_panel. congruence. Qed.

Ltac keeps_panel :=
  open_script;
  respects_with same_panel_refl same_panel_trans
    ltac:(unfold same_panel; reflexivity).

Lemma panel_sendMessage : respects same_panel sendMessage.
Proof. keeps_panel. Qed.

Lemma panel_on_filter_click (i : nat) : respects same_panel (on_filter_click i).
Proof. keeps_panel. Qed.

Lemma panel_updateTaskStatus (a b : string) :
  respects same_panel (updateTaskStatus a b).
Proof. keeps_panel. Qed.

Lemma panel_on_dataavailable (data : Chunk) :
  respects same_panel (on_dataavailable data).
Proof. keeps_panel. Qed.

Lemma panel_toggleVoiceRecording : respects same_panel toggleVoiceRecording.
Proof. keeps_panel. Qed.

Lemma panel_startRecording_then (st : nat) :
  respects same_panel (startRecording_then st).
Proof. keeps_panel. Qed.

Lemma panel_startRecording_catch (e : JsError) :
  respects same_panel (startRecording_catch e).
Proof. keeps_panel. Qed.

Lemma panel_on_stop (st : nat) : respects same_panel (on_stop st).
Proof. keeps_panel. Qed.

(** Only the continuation of [loadTasks] renders the panel. *)
Lemma panel_resume (site : Awaiting) (o : Settled) :
  site <> InLoadTasks -> respects same_panel (resume site o).
Proof. intros Hsite. destruct site; try contradiction; keeps_panel. Qed.

Lemma panel_run_handler (m : M unit) (s : State) :
  tasksList (dom (run_handler m s)) = tasksList (dom (snd (m s))).
Proof. unfold run_handler. destruct (m s) as [[[]|e] s1]; reflexivity. Qed.

Lemma run_handler_same_panel (m : M unit) (s s0 : State) :
  respects same_panel m ->
  tasksList (dom s0) = tasksList (dom s) ->
  same_panel s (run_handler m s0).
Proof.
  intros Hm Hsame. unfold same_panel.
  rewrite panel_run_handler. specialize (Hm s0). unfold same_panel in Hm.
  now rewrite Hm.
Qed.

(** Every step but the answer to a task query leaves the panel as it
    is. *)
Lemma step_same_panel (s s' : State) (e : Event) :
  step s e = Some s' ->
  (forall q o, e = FetchSettled q o ->
               fetching (host s) !! q <> Some InLoadTasks) ->
  same_panel s s'.
Proof.
  intros Hstep Htasks. destruct e; cbn [step] in Hstep.
  - injection Hstep as <-. reflexivity.
  - injection Hstep as <-.
    now apply run_handler_same_panel; [apply panel_sendMessage|].
  - injection Hstep as <-. apply run_handler_same_panel; [|reflexivity].
    unfold on_keydown. apply (respects_when _ same_panel_refl), panel_sendMessage.
  - destruct (disabled (voiceButton (dom s))); [discriminate|].
    injection Hstep as <-.
    now apply run_handler_same_panel; [apply panel_toggleVoiceRecording|].
  - destruct (filterButtons (dom s) !! i); [|discriminate].
    injection Hstep as <-.
    now apply run_handler_same_panel; [apply panel_on_filter_click|].
  - destruct (action_at s card button); [|discriminate].
    injection Hstep as <-.
    now apply run_handler_same_panel; [apply panel_updateTaskStatus|].
  - destruct (fetching (host s) !! p) as [site|] eqn:Hp; [|discriminate].
    injection Hstep as <-. apply run_handler_same_panel; [|reflexivity].
    apply panel_resume. intros ->. exact (Htasks p o eq_refl Hp).
  - destruct (bool_decide (p ∈ asking (host s))); [|discriminate].
    injection Hstep as <-. apply run_handler_same_panel; [|reflexivity].
    apply (respects_try_catch _ same_panel_trans);
      [apply panel_startRecording_then | apply panel_startRecording_catch].
  - destruct (bool_decide (p ∈ asking (host s))); [|discriminate].
    injection Hstep as <-.
    now apply run_handler_same_panel; [apply panel_startRecording_catch|].
  - destruct (recorders (host s) !! r) as [[st []]|]; try discriminate;
      injection Hstep as <-;
      (now apply run_handler_same_panel; [apply panel_on_dataavailable|]).
  - destruct (recorders (host s) !! r) as [[st []]|]; try discriminate.
    injection Hstep as <-.
    now apply run_handler_same_panel; [apply panel_on_stop|].
  - destruct (recorders (host s) !! r) as [[st []]|]; try discriminate.
    injection Hstep as <-. reflexivity.
Qed.

(** C6 as stated fails.  On the example page with [task1] (pending) and
    [task2] shown, the user clicks the all filter (task query 1) and,
    before its answer arrives, the Complete button of the first card
    (update 2).  The update succeeds and triggers the reload (task query
    3), whose answer holds the completed task and is rendered.  Then the
    answer to query 1 arrives, computed before the update: the panel shows
    task 1 as pending again.  Nothing is pending any more, and the list
    shown after the successful update is not the reload's answer. *)
Lemma update_then_stale_answer :
  exists s',
    run tasks_shown
      [ ClickFilter 0;
        ClickAction 0 0;
        FetchSettled 2 (Response true NotJson);
        FetchSettled 3 (task_list (Some [task1_done; task2]));
        FetchSettled 1 (task_list (Some [task1; task2])) ] = Some s'
    /\ fetching (host s') = ∅
    /\ List.filter is_fetch (effects (host s')) =
         [ Fetch 0 (tasks_request "all");
           Fetch 1 (tasks_request "all");
           Fetch 2 (update_request "1" "completed");
           Fetch 3 (tasks_request "all") ]
    /\ List.find active (filterButtons (dom s'))
       = Some {| dataset_filter := "all"; active := true |}
    /\ tasksList (dom s') = rendered [task1; task2]
    /\ tasksList (dom s') <> rendered [task1_done; task2].
Proof.
  eexists. split; [vm_compute; reflexivity|].
  split; [vm_compute; reflexivity|]. split; [vm_compute; reflexivity|].
  split; [vm_compute; reflexivity|]. split; [vm_compute; reflexivity|].
  intros H. vm_compute in H. discriminate H.
Qed.

(** C6, as the script has it.  [updateTaskStatus] never writes to the
    page: sending the update leaves the page as it is, and so does the
    handling of its answer, whatever the answer is.  When the pending
    update [p] succeeds, exactly one request follows: the task query for
    the filter of the active button [b]; when that query is answered next
    with tasks [ts], the panel shows the rendering of [ts].  When the
    update fails, the page and the variables are unchanged and the only
    effect is the console report.  In every state of the page, a step
    changes the panel only if it handles the answer to a pending task
    query, and the answer to any pending task query, once it succeeds
    with tasks [ts], is what the panel then shows: the panel follows the
    task query answered last, which is the reload's only as long as no
    older query is answered after it. *)
Theorem update_reloads_last_answer_shown (s : State) (p : nat) :
  fetching (host s) !! p = Some InUpdateTaskStatus ->
  (forall taskId new_status,
     dom (run_handler (updateTaskStatus taskId new_status) s) = dom s)
  /\ (forall o, exists s1, step s (FetchSettled p o) = Some s1 /\ dom s1 = dom s)
  /\ (forall b payload,
        List.find active (filterButtons (dom s)) = Some b ->
        exists s1,
          step s (FetchSettled p (Response true payload)) = Some s1
          /\ dom s1 = dom s
          /\ effects (host s1) =
               effects (host s)
                 ++ [Fetch (promises (host s)) (tasks_request (dataset_filter b))]
          /\ fetching (host s1) =
               <[promises (host s) := InLoadTasks]> (delete p (fetching (host s)))
          /\ forall text n voice ts,
               exists s2,
                 step s1 (FetchSettled (promises (host s))
                            (Response true (JsonBody (JObject text n voice ts))))
                   = Some s2
                 /\ tasksList (dom s2) = rendered (default [] ts))
  /\ (forall o,
        failed o = true ->
        exists s1,
          step s (FetchSettled p o) = Some s1
          /\ dom s1 = dom s
          /\ vars s1 = vars s
          /\ effects (host s1) =
               effects (host s)
                 ++ [ConsoleError "Error updating task:" (failure_error o)]
          /\ fetching (host s1) = delete p (fetching (host s)))
  /\ (forall s2 e s3,
        step s2 e = Some s3 ->
        tasksList (dom s3) = tasksList (dom s2)
        \/ exists q o, e = FetchSettled q o
                       /\ fetching (host s2) !! q = Some InLoadTasks)
  /\ (forall s2 q text n voice ts,
        fetching (host s2) !! q = Some InLoadTasks ->
        exists s3,
          step s2 (FetchSettled q (Response true (JsonBody (JObject text n voice ts))))
            = Some s3
          /\ tasksList (dom s3) = rendered (default [] ts)).
Proof.
  intros Hp. split; [|split; [|split; [|split; [|split]]]].
  - intros taskId new_status. reflexivity.
  - intros o. eexists. split.
    + rewrite (step_settled _ _ _ _ Hp). reflexivity.
    + cbn [resume]. unfold run_handler. destruct o as [|[] payload].
      * now rewrite updateTaskStatus_resume_failed.
      * rewrite updateTaskStatus_resume_ok.
        destruct (List.find active (filterButtons (dom (settled p s))));
          reflexivity.
      * now rewrite updateTaskStatus_resume_failed.
  - intros b payload Hb. eexists. split.
    + rewrite (step_settled _ _ _ _ Hp). cbn [resume]. unfold run_handler.
      rewrite updateTaskStatus_resume_ok. js. cbn [filterButtons]. rewrite Hb.
      reflexivity.
    + js. repeat split; try reflexivity.
      intros text n voice ts. eexists. split.
      * erewrite step_settled; [|js; apply lookup_insert_eq].
        cbn [resume]. unfold run_handler. rewrite loadTasks_resume_ok.
        reflexivity.
      * reflexivity.
  - intros o Hfail. eexists. split.
    + rewrite (step_settled _ _ _ _ Hp). cbn [resume]. unfold run_handler.
      rewrite updateTaskStatus_resume_failed by exact Hfail. reflexivity.
    + js. repeat split; reflexivity.
  - intros s2 e s3 Hstep.
    assert (Hcases : (exists q o, e = FetchSettled q o
                        /\ fetching (host s2) !! q = Some InLoadTasks)
                     \/ (forall q o, e = FetchSettled q o ->
                           fetching (host s2) !! q <> Some InLoadTasks)).
    { destruct e; try (right; intros q o' He; discriminate He).
      destruct (fetching (host s2) !! p0) as [[]|] eqn:Hq;
        try (right; intros q o' He; injection He as <- <-; rewrite Hq;
             discriminate).
      left. now exists p0, o. }
    destruct Hcases as [Hq | Hother]; [right; exact Hq | left].
    exact (step_same_panel s2 s3 e Hstep Hother).
  - intros s2 q text n voice ts Hq. eexists. split.
    + rewrite (step_settled _ _ _ _ Hq). cbn [resume]. unfold run_handler.
      rewrite loadTasks_resume_ok. reflexivity.
    + reflexivity.
Qed.

Lemma update_reloads_last_answer_shown_witness :
  (forall taskId new_status,
     dom (run_handler (updateTaskStatus taskId new_status) update_pending)
       = dom update_pending)
  /\ (forall o, exists s1,
        step update_pending (FetchSettled 1 o) = Some s1
        /\ dom s1 = dom update_pending)
  /\ (forall b payload,
        List.find active (filterButtons (dom update_pending)) = Some b ->
        exists s1,
          step update_pending (FetchSettled 1 (Response true payload)) = Some s1
          /\ dom s1 = dom update_pending
          /\ effects (host s1) =
               effects (host update_pending)
                 ++ [Fetch (promises (host update_pending))
                       (tasks_request (dataset_filter b))]
          /\ fetching (host s1) =
               <[promises (host update_pending) := InLoadTasks]>
                 (delete 1 (fetching (host update_pending)))
          /\ forall text n voice ts,
               exists s2,
                 step s1 (FetchSettled (promises (host update_pending))
                            (Response true (JsonBody (JObject text n voice ts))))
                   = Some s2
                 /\ tasksList (dom s2) = rendered (default [] ts))
  /\ (forall o,
        failed o = true ->
        exists s1,
          step update_pending (FetchSettled 1 o) = Some s1
          /\ dom s1 = dom update_pending
          /\ vars s1 = vars update_pending
          /\ effects (host s1) =
               effects (host update_pending)
                 ++ [ConsoleError "Error updating task:" (failure_error o)]
          /\ fetching (host s1) = delete 1 (fetching (host update_pending)))
  /\ (forall s2 e s3,
        step s2 e = Some s3 ->
        tasksList (dom s3) = tasksList (dom s2)
        \/ exists q o, e = FetchSettled q o
                       /\ fetching (host s2) !! q = Some InLoadTasks)
  /\ (forall s2 q text n voice ts,
        fetching (host s2) !! q = Some InLoadTasks ->
        exists s3,
          step s2 (FetchSettled q (Response true (JsonBody (JObject text n voice ts))))
            = Some s3
          /\ tasksList (dom s3) = rendered (default [] ts)).
Proof.
  apply (update_reloads_last_answer_shown update_pending 1). reflexivity.
Defined.
